(** * TCP session tracking of swarm: [src/proto/tcp_ssn.cc]

    A shallow embedding of the per-flow TCP state machine ([TcpSession] and
    its two [Node] endpoints) and of the session decoder ([TcpSsnDecoder])
    that drives it, together with the properties of the written
    specification that concern them.

    Machine integers are carried as [Z]; every place where the C++ code
    truncates to 32 bits is written out with [u32]. *)

From Stdlib Require Import ZArith Bool List Lia String.
From stdpp Require Import base option list.
Import ListNotations.
Local Open Scope Z_scope.

(** ** Machine integers *)

(** Conversion to [uint32_t]. *)
Definition u32 (x : Z) : Z := x mod 2 ^ 32.

(** ** [enum TcpStat] *)

Inductive TcpStat : Set :=
| CLOSED
| LISTEN
| SYN_SENT
| SYN_RCVD
| ESTABLISHED
| CLOSING
| TIME_WAIT.

Definition TcpStat_eqb (a b : TcpStat) : bool :=
  match a, b with
  | CLOSED, CLOSED | LISTEN, LISTEN | SYN_SENT, SYN_SENT
  | SYN_RCVD, SYN_RCVD | ESTABLISHED, ESTABLISHED
  | CLOSING, CLOSING | TIME_WAIT, TIME_WAIT => true
  | _, _ => false
  end.

(** Modelled from the spec: the enumeration [FlowDir] is declared in the
    framework headers ([swarm/decode.hpp]), which are not part of the
    sources at hand.  The spec gives its three values. *)
Inductive FlowDir : Set :=
| DIR_NIL
| DIR_L2R
| DIR_R2L.

Definition FlowDir_eqb (a b : FlowDir) : bool :=
  match a, b with
  | DIR_NIL, DIR_NIL | DIR_L2R, DIR_L2R | DIR_R2L, DIR_R2L => true
  | _, _ => false
  end.

(** ** TCP flag bits ([TcpSession]'s static constants) *)

Definition FIN : Z := 0x01.
Definition SYN : Z := 0x02.
Definition RST : Z := 0x04.
Definition PUSH : Z := 0x08.
Definition ACK : Z := 0x10.
Definition URG : Z := 0x20.
Definition ECE : Z := 0x40.
Definition CWR : Z := 0x80.

(** ** [class TcpSession::Node] *)

Record Node : Set := mkNode {
  base_seq_ : Z;      (* uint32_t *)
  sent_len_ : Z;      (* uint32_t *)
  next_ack_ : Z;      (* uint32_t *)
  avail_seq_ : bool;
  avail_ack_ : bool;
  stat_ : TcpStat;
  recv_fin_ : bool;
  recv_finack_ : bool;
  sent_finack_ : bool;
  updated_ : bool
}.

(** [Node::Node()]; the [memset] of the [TcpSession] constructor yields the
    same all-zero object. *)
Definition Node_new : Node :=
  mkNode 0 0 0 false false CLOSED false false false false.

(** Field assignments. *)
Definition set_base_seq (v : Z) (n : Node) : Node :=
  mkNode v (sent_len_ n) (next_ack_ n) (avail_seq_ n) (avail_ack_ n) (stat_ n)
         (recv_fin_ n) (recv_finack_ n) (sent_finack_ n) (updated_ n).
Definition set_sent_len (v : Z) (n : Node) : Node :=
  mkNode (base_seq_ n) v (next_ack_ n) (avail_seq_ n) (avail_ack_ n) (stat_ n)
         (recv_fin_ n) (recv_finack_ n) (sent_finack_ n) (updated_ n).
Definition set_next_ack (v : Z) (n : Node) : Node :=
  mkNode (base_seq_ n) (sent_len_ n) v (avail_seq_ n) (avail_ack_ n) (stat_ n)
         (recv_fin_ n) (recv_finack_ n) (sent_finack_ n) (updated_ n).
Definition set_avail_seq (v : bool) (n : Node) : Node :=
  mkNode (base_seq_ n) (sent_len_ n) (next_ack_ n) v (avail_ack_ n) (stat_ n)
         (recv_fin_ n) (recv_finack_ n) (sent_finack_ n) (updated_ n).
Definition set_avail_ack (v : bool) (n : Node) : Node :=
  mkNode (base_seq_ n) (sent_len_ n) (next_ack_ n) (avail_seq_ n) v (stat_ n)
         (recv_fin_ n) (recv_finack_ n) (sent_finack_ n) (updated_ n).
Definition set_stat (v : TcpStat) (n : Node) : Node :=
  mkNode (base_seq_ n) (sent_len_ n) (next_ack_ n) (avail_seq_ n) (avail_ack_ n) v
         (recv_fin_ n) (recv_finack_ n) (sent_finack_ n) (updated_ n).
Definition set_recv_fin (v : bool) (n : Node) : Node :=
  mkNode (base_seq_ n) (sent_len_ n) (next_ack_ n) (avail_seq_ n) (avail_ack_ n) (stat_ n)
         v (recv_finack_ n) (sent_finack_ n) (updated_ n).
Definition set_recv_finack (v : bool) (n : Node) : Node :=
  mkNode (base_seq_ n) (sent_len_ n) (next_ack_ n) (avail_seq_ n) (avail_ack_ n) (stat_ n)
         (recv_fin_ n) v (sent_finack_ n) (updated_ n).
Definition set_sent_finack (v : bool) (n : Node) : Node :=
  mkNode (base_seq_ n) (sent_len_ n) (next_ack_ n) (avail_seq_ n) (avail_ack_ n) (stat_ n)
         (recv_fin_ n) (recv_finack_ n) v (updated_ n).
Definition set_updated (v : bool) (n : Node) : Node :=
  mkNode (base_seq_ n) (sent_len_ n) (next_ack_ n) (avail_seq_ n) (avail_ack_ n) (stat_ n)
         (recv_fin_ n) (recv_finack_ n) (sent_finack_ n) v.

(** [Node::stat()] and [Node::updated()]. *)
Definition stat (n : Node) : TcpStat := stat_ n.
Definition updated (n : Node) : bool := updated_ n.

(** [Node::update_stat]. *)
Definition update_stat (st : TcpStat) (n : Node) : Node :=
  set_updated true (set_stat st n).

(** The condition of the [assert] that opens [recv] and [send]:
    [(~(SYN | ACK | FIN | RST) & flags) == 0]. *)
Definition flags_asserted (flags : Z) : bool :=
  Z.land (Z.lnot (Z.lor (Z.lor (Z.lor SYN ACK) FIN) RST)) flags =? 0.

(** [Node::recv].  [None] stands for the failed assertion. *)
Definition recv (flags seq ack data_len : Z) (n : Node) : option (bool * Node) :=
  if negb (flags_asserted flags) then None else
  let n := set_updated false n in
  let n :=
    match stat_ n with
    | CLOSED =>
        if flags =? SYN
        then set_avail_ack true (set_next_ack (u32 (seq + 1)) (update_stat LISTEN n))
        else n
    | LISTEN => n
    | SYN_SENT =>
        if flags =? Z.lor SYN ACK
        then set_avail_ack true (set_next_ack (u32 (seq + 1)) n)
        else n
    | SYN_RCVD => n
    | ESTABLISHED =>
        if 0 <? Z.land flags FIN then set_recv_fin true n else n
    | CLOSING =>
        let n := if 0 <? Z.land flags FIN then set_recv_fin true n else n in
        let n := if 0 <? Z.land flags ACK then set_recv_finack true n else n in
        if recv_fin_ n && recv_finack_ n && sent_finack_ n
        then update_stat TIME_WAIT n
        else n
    | TIME_WAIT => n
    end in
  let n :=
    if TcpStat_eqb (stat_ n) ESTABLISHED || TcpStat_eqb (stat_ n) SYN_RCVD
    then set_next_ack (u32 (next_ack_ n + data_len)) n
    else n in
  Some (true, n).

(** [Node::send]. *)
Definition send (flags seq ack data_len : Z) (n : Node) : option (bool * Node) :=
  if negb (flags_asserted flags) then None else
  let n := set_updated false n in
  let n :=
    match stat_ n with
    | CLOSED =>
        if flags =? SYN
        then set_avail_seq true (set_base_seq seq (update_stat SYN_SENT n))
        else n
    | LISTEN =>
        if flags =? Z.lor SYN ACK
        then set_avail_seq true (set_base_seq seq (update_stat SYN_RCVD n))
        else n
    | SYN_SENT =>
        if flags =? ACK then update_stat ESTABLISHED n else n
    | SYN_RCVD =>
        if flags =? FIN then update_stat CLOSING n else update_stat ESTABLISHED n
    | ESTABLISHED =>
        let n := if 0 <? Z.land flags FIN then update_stat CLOSING n else n in
        if recv_fin_ n && (0 <? Z.land flags ACK) then set_sent_finack true n else n
    | CLOSING =>
        if recv_fin_ n && (0 <? Z.land flags ACK) then set_sent_finack true n else n
    | TIME_WAIT => n
    end in
  let n :=
    if TcpStat_eqb (stat_ n) ESTABLISHED
    then set_sent_len (u32 (sent_len_ n + data_len)) n
    else n in
  Some (true, n).

(** [Node::check_seq]. *)
Definition check_seq (seq ack : Z) (n : Node) : bool :=
  if (negb (avail_seq_ n) || (u32 (base_seq_ n + sent_len_ n + 1) <=? seq))
     && (negb (avail_ack_ n) || negb (next_ack_ n =? 0))
  then true
  else false.

(** ** [class TcpSession] *)

Record TcpSession : Set := mkTcpSession {
  key_ : list Z;      (* the owned copy of the flow label *)
  len_ : Z;
  hash_ : Z;
  ts_ : Z;
  server_ : Node;
  client_ : Node;
  dir_ : FlowDir
}.

Definition set_ts (ts : Z) (s : TcpSession) : TcpSession :=
  mkTcpSession (key_ s) (len_ s) (hash_ s) ts (server_ s) (client_ s) (dir_ s).
Definition set_server (n : Node) (s : TcpSession) : TcpSession :=
  mkTcpSession (key_ s) (len_ s) (hash_ s) (ts_ s) n (client_ s) (dir_ s).
Definition set_client (n : Node) (s : TcpSession) : TcpSession :=
  mkTcpSession (key_ s) (len_ s) (hash_ s) (ts_ s) (server_ s) n (dir_ s).
Definition set_dir (d : FlowDir) (s : TcpSession) : TcpSession :=
  mkTcpSession (key_ s) (len_ s) (hash_ s) (ts_ s) (server_ s) (client_ s) d.

(** The constructor.  It leaves [ts_] unset; [fetch_session] assigns it
    right after every construction, and [0] stands for the unset value. *)
Definition TcpSession_new (key : list Z) (key_len hash : Z) : TcpSession :=
  mkTcpSession key key_len hash 0 Node_new Node_new DIR_NIL.

Definition ts (s : TcpSession) : Z := ts_ s.

(** [TcpSession::match] ([memcmp] over the two labels) and [hash]. *)
Definition ssn_match (key : list Z) (len : Z) (s : TcpSession) : bool :=
  (len_ s =? len) && bool_decide (key_ s = key).
Definition hash (s : TcpSession) : Z := hash_ s.

Definition to_server (dir : FlowDir) (s : TcpSession) : bool :=
  FlowDir_eqb (dir_ s) dir && negb (FlowDir_eqb (dir_ s) DIR_NIL).
Definition to_client (dir : FlowDir) (s : TcpSession) : bool :=
  negb (FlowDir_eqb (dir_ s) dir) && negb (FlowDir_eqb (dir_ s) DIR_NIL).
Definition server_stat (s : TcpSession) : TcpStat := stat (server_ s).
Definition client_stat (s : TcpSession) : TcpStat := stat (client_ s).

Definition is_data_available (dir : FlowDir) (s : TcpSession) : bool :=
  let sender := if FlowDir_eqb (dir_ s) dir then client_ s else server_ s in
  if negb (updated sender) && TcpStat_eqb (stat sender) ESTABLISHED
  then true
  else false.

(** The two [Node*] of [update]: which member a pointer designates. *)
Inductive Side : Set := Client | Server.

Definition node_of (sd : Side) (s : TcpSession) : Node :=
  match sd with Client => client_ s | Server => server_ s end.
Definition set_node (sd : Side) (n : Node) (s : TcpSession) : TcpSession :=
  match sd with Client => set_client n s | Server => set_server n s end.

(** [TcpSession::update].  [None] stands for a failed assertion, in the
    endpoints or in the choice of the sender. *)
Definition update (flags seq ack data_len : Z) (dir : FlowDir) (s : TcpSession)
  : option (bool * TcpSession) :=
  let f := Z.land flags (Z.lor (Z.lor (Z.lor FIN SYN) RST) ACK) in
  if FlowDir_eqb (dir_ s) DIR_NIL then
    if f =? SYN then
      let s := set_dir dir s in
      r1 ← send f seq ack data_len (client_ s);
      let s := set_client r1.2 s in
      r2 ← recv f seq ack data_len (server_ s);
      let s := set_server r2.2 s in
      Some (true, s)
    else
      Some (false, s)
  else
    pr ← (if to_server dir s then Some (Client, Server)
          else if to_client dir s then Some (Server, Client)
          else None);
    let '(sender, recver) := pr in
    if check_seq seq ack (node_of sender s) then
      r1 ← send f seq ack data_len (node_of sender s);
      let s := set_node sender r1.2 s in
      r2 ← recv f seq ack data_len (node_of recver s);
      let s := set_node recver r2.2 s in
      Some (true, s)
    else
      Some (false, s).

(** A segment as [update] receives it. *)
Record Segment : Set := mkSegment {
  seg_dir : FlowDir;
  seg_flags : Z;
  seg_seq : Z;
  seg_ack : Z;
  seg_len : Z
}.

Definition update_seg (g : Segment) (s : TcpSession) : option (bool * TcpSession) :=
  update (seg_flags g) (seg_seq g) (seg_ack g) (seg_len g) (seg_dir g) s.

(** Successive calls of [update] on one session, with the results. *)
Fixpoint updates (gs : list Segment) (s : TcpSession) : option (list bool * TcpSession) :=
  match gs with
  | [] => Some ([], s)
  | g :: gs =>
      r ← update_seg g s;
      rs ← updates gs r.2;
      Some (r.1 :: rs.1, rs.2)
  end.

(** ** The framework objects the decoder works on *)

(** Modelled from the spec: the value of a packet attribute ([Var] in
    [swarm/decode.hpp], not part of the sources at hand): a byte slice as
    [set] attaches it, or a copied fixed-size value as [copy] attaches it. *)
Inductive Var : Set :=
| VarNull
| VarBytes (data : list Z)
| VarBool (b : bool)
| VarStat (st : TcpStat).

(** Modelled from the spec: the [Property] of [swarm/decode.hpp], the
    per-packet object handed from decoder to decoder.  Only the accessors
    that [TcpSsnDecoder] uses are kept: [tv_sec], [dir], [remain],
    [payload], [ssn_label], [hash_value], [value], [set], [copy] and
    [push_event]. *)
Record Property : Set := mkProperty {
  tv_sec : Z;
  dir : FlowDir;
  buf : list Z;                 (* the unconsumed payload *)
  ssn_label : list Z;           (* the direction-symmetric flow label *)
  hash_value : Z;
  vals : list (Z * Var);        (* attribute writes, oldest first *)
  events : list Z               (* pushed events, oldest first *)
}.

(** Modelled from the spec: [Property::remain], the length of the
    unconsumed payload, and [Property::payload], a slice of [n] bytes of
    it. *)
Definition remain (p : Property) : Z := Z.of_nat (length (buf p)).
Definition payload (n : Z) (p : Property) : list Z := take (Z.to_nat n) (buf p).

(** Modelled from the spec: [Property::value], the value last attached
    under an identifier. *)
Fixpoint assoc_last (id : Z) (l : list (Z * Var)) (acc : Var) : Var :=
  match l with
  | [] => acc
  | (k, v) :: l => assoc_last id l (if k =? id then v else acc)
  end.

Definition value (id : Z) (p : Property) : Var := assoc_last id (vals p) VarNull.

(** Modelled from the spec: [Property::set], [Property::copy] and
    [Property::push_event]. *)
Definition set (id : Z) (data : list Z) (p : Property) : Property :=
  mkProperty (tv_sec p) (dir p) (buf p) (ssn_label p) (hash_value p)
             (vals p ++ [(id, VarBytes data)]) (events p).
Definition copy (id : Z) (v : Var) (p : Property) : Property :=
  mkProperty (tv_sec p) (dir p) (buf p) (ssn_label p) (hash_value p)
             (vals p ++ [(id, v)]) (events p).
Definition push_event (ev : Z) (p : Property) : Property :=
  mkProperty (tv_sec p) (dir p) (buf p) (ssn_label p) (hash_value p)
             (vals p) (events p ++ [ev]).

(** Network byte order to host: the big-endian reading of a slice. *)
Definition be_decode (l : list Z) : Z :=
  fold_left (λ acc b, acc * 256 + b mod 256) l 0.

(** Modelled from the spec: [Var::ntoh<T>] for a [T] of [w] bytes.  A value
    of another size reads as [0]. *)
Definition ntoh (w : nat) (v : Var) : Z :=
  match v with
  | VarBytes l => if bool_decide (length l = w) then be_decode l else 0
  | _ => 0
  end.

(** Modelled from the spec: the registry [NetDec] of [swarm/decode.hpp]:
    names of events and of values, an identifier being the position of its
    name. *)
Record NetDec : Set := mkNetDec {
  nd_events : list string;
  nd_values : list string
}.

(** Modelled from the spec: [NetDec::assign_event], [NetDec::assign_value]
    and [NetDec::lookup_value_id]; a name that is not registered has the
    identifier [-1]. *)
Definition assign_event (name : string) (nd : NetDec) : Z * NetDec :=
  (Z.of_nat (length (nd_events nd)),
   mkNetDec (nd_events nd ++ [name]) (nd_values nd)).
Definition assign_value (name : string) (nd : NetDec) : Z * NetDec :=
  (Z.of_nat (length (nd_values nd)),
   mkNetDec (nd_events nd) (nd_values nd ++ [name])).

Fixpoint index_of (name : string) (l : list string) (i : Z) : Z :=
  match l with
  | [] => -1
  | x :: l => if String.eqb x name then i else index_of name l (i + 1)
  end.
Definition lookup_value_id (name : string) (nd : NetDec) : Z :=
  index_of name (nd_values nd) 0.

(** ** The session table *)

(** Modelled from the spec: the interface of [LRUHash]
    ([proto/utils/lru_hash.hpp], not part of the sources at hand): [get],
    [put], [prog] and [pop] as the spec's contract lists them.

    The table holds pointers to the sessions, and the decoder writes to a
    session it got from [get] or has just [put]: [lru_store] is that write,
    seen from the table.  [lru_pending] counts the entries that wait in the
    expired queue. *)
Class LRUHash (T : Type) := {
  lru_new : Z → Z → T;
  lru_get : Z → list Z → Z → T → option TcpSession;
  lru_put : Z → TcpSession → T → T;
  lru_prog : Z → T → T;
  lru_pop : T → option (TcpSession * T);
  lru_store : TcpSession → T → T;
  lru_pending : T → nat
}.


(** ** [class TcpSsnDecoder] *)

Definition TIMEOUT : Z := 300.

Record TcpSsnDecoder (T : Type) : Type := mkTcpSsnDecoder {
  EV_EST_ : Z;
  EV_DATA_ : Z;
  P_SEG_ : Z;
  P_TO_SERVER_ : Z;
  P_SERVER_STAT_ : Z;
  P_CLIENT_STAT_ : Z;
  P_TCP_HDR_ : Z;
  P_TCP_SEQ_ : Z;
  P_TCP_ACK_ : Z;
  P_TCP_FLAGS_ : Z;
  ssn_table_ : T;
  last_ts_ : Z
}.
Arguments mkTcpSsnDecoder {T}.
Arguments EV_EST_ {T}.
Arguments EV_DATA_ {T}.
Arguments P_SEG_ {T}.
Arguments P_TO_SERVER_ {T}.
Arguments P_SERVER_STAT_ {T}.
Arguments P_CLIENT_STAT_ {T}.
Arguments P_TCP_HDR_ {T}.
Arguments P_TCP_SEQ_ {T}.
Arguments P_TCP_ACK_ {T}.
Arguments P_TCP_FLAGS_ {T}.
Arguments ssn_table_ {T}.
Arguments last_ts_ {T}.

(** What [timeout_session] does with an entry it popped. *)
Inductive Disposal : Set :=
| Destroyed
| Reinserted (ttl : Z).

(** The calls that one run of [timeout_session] made. *)
Record TimeoutLog : Set := mkTimeoutLog {
  prog_calls : list Z;
  popped : list (TcpSession * Disposal)
}.

(** What one call of [decode] leaves behind: its return value, the decoder,
    the property, and the session it worked on. *)
Record Decoded (T : Type) : Type := mkDecoded {
  rc : bool;
  dec : TcpSsnDecoder T;
  prop : Property;
  ssn : TcpSession
}.
Arguments mkDecoded {T}.
Arguments rc {T}.
Arguments dec {T}.
Arguments prop {T}.
Arguments ssn {T}.

Section Decoder.
Context {T : Type} `{LRUHash T}.

Definition set_table (t : T) (d : TcpSsnDecoder T) : TcpSsnDecoder T :=
  mkTcpSsnDecoder (EV_EST_ d) (EV_DATA_ d) (P_SEG_ d) (P_TO_SERVER_ d)
    (P_SERVER_STAT_ d) (P_CLIENT_STAT_ d) (P_TCP_HDR_ d) (P_TCP_SEQ_ d)
    (P_TCP_ACK_ d) (P_TCP_FLAGS_ d) t (last_ts_ d).
Definition set_last_ts (v : Z) (d : TcpSsnDecoder T) : TcpSsnDecoder T :=
  mkTcpSsnDecoder (EV_EST_ d) (EV_DATA_ d) (P_SEG_ d) (P_TO_SERVER_ d)
    (P_SERVER_STAT_ d) (P_CLIENT_STAT_ d) (P_TCP_HDR_ d) (P_TCP_SEQ_ d)
    (P_TCP_ACK_ d) (P_TCP_FLAGS_ d) (ssn_table_ d) v.

(** The constructor.  The four [P_TCP_*] identifiers are left unset until
    [setup]; [-1] stands for the unset value. *)
Definition TcpSsnDecoder_new (nd : NetDec) : TcpSsnDecoder T * NetDec :=
  let '(ev_est, nd) := assign_event "tcp_ssn.established" nd in
  let '(ev_data, nd) := assign_event "tcp_ssn.data" nd in
  let '(p_seg, nd) := assign_value "tcp_ssn.segment" nd in
  let '(p_to_server, nd) := assign_value "tcp_ssn.to_server" nd in
  let '(p_server_stat, nd) := assign_value "tcp_ssn.server_stat" nd in
  let '(p_client_stat, nd) := assign_value "tcp_ssn.client_stat" nd in
  (mkTcpSsnDecoder ev_est ev_data p_seg p_to_server p_server_stat
     p_client_stat (-1) (-1) (-1) (-1) (lru_new 3600 0xffff) 0, nd).

Definition setup (nd : NetDec) (d : TcpSsnDecoder T) : TcpSsnDecoder T :=
  mkTcpSsnDecoder (EV_EST_ d) (EV_DATA_ d) (P_SEG_ d) (P_TO_SERVER_ d)
    (P_SERVER_STAT_ d) (P_CLIENT_STAT_ d)
    (lookup_value_id "tcp.header" nd) (lookup_value_id "tcp.seq" nd)
    (lookup_value_id "tcp.ack" nd) (lookup_value_id "tcp.flags" nd)
    (ssn_table_ d) (last_ts_ d).

(** The [while] loop of [timeout_session], for at most [fuel] entries;
    [None] when more than [fuel] entries come out of [pop]. *)
Fixpoint drain (fuel : nat) (tv_sec : Z) (t : T)
  : option (T * list (TcpSession * Disposal)) :=
  match lru_pop t with
  | None => Some (t, [])
  | Some (outdated_ssn, t) =>
      match fuel with
      | O => None
      | S fuel =>
          if ts outdated_ssn + TIMEOUT <? tv_sec then
            r ← drain fuel tv_sec t;
            Some (r.1, (outdated_ssn, Destroyed) :: r.2)
          else
            r ← drain fuel tv_sec (lru_put TIMEOUT outdated_ssn t);
            Some (r.1, (outdated_ssn, Reinserted TIMEOUT) :: r.2)
      end
  end.

(** [TcpSsnDecoder::timeout_session], with the calls it makes on the table.
    The loop is given one round for each entry that waits in the expired
    queue; [drain_total] shows that it ends within them on a table that
    meets [LRUHashLaws]. *)
Definition timeout_session (tv_sec : Z) (d : TcpSsnDecoder T)
  : option (TcpSsnDecoder T * TimeoutLog) :=
  let '(t, progs) :=
    if (0 <? last_ts_ d) && (last_ts_ d <? tv_sec)
    then (lru_prog (tv_sec - last_ts_ d) (ssn_table_ d), [tv_sec - last_ts_ d])
    else (ssn_table_ d, []) in
  let d := set_last_ts tv_sec d in
  r ← drain (lru_pending t) tv_sec t;
  Some (set_table r.1 d, mkTimeoutLog progs r.2).

(** [TcpSsnDecoder::fetch_session]: the session, and the decoder whose
    table holds it. *)
Definition fetch_session (p : Property) (d : TcpSsnDecoder T)
  : TcpSession * TcpSsnDecoder T :=
  let key_len := Z.of_nat (length (ssn_label p)) in
  let ssn_key := ssn_label p in
  let '(ssn, t) :=
    match lru_get (hash_value p) ssn_key key_len (ssn_table_ d) with
    | Some ssn => (ssn, ssn_table_ d)
    | None =>
        let ssn := TcpSession_new ssn_key key_len (hash_value p) in
        (ssn, lru_put TIMEOUT ssn (ssn_table_ d))
    end in
  let ssn := set_ts (tv_sec p) ssn in
  (ssn, set_table (lru_store ssn t) d).

(** [TcpSsnDecoder::decode].  [None] stands for a failed assertion or an
    unfinished drain loop. *)
Definition decode (d : TcpSsnDecoder T) (p : Property) : option (Decoded T) :=
  r ← timeout_session (tv_sec p) d;
  let '(ssn, d) := fetch_session p r.1 in
  let data_len := remain p in
  let flags := ntoh 1 (value (P_TCP_FLAGS_ d) p) in
  let seq := ntoh 4 (value (P_TCP_SEQ_ d) p) in
  let ack := ntoh 4 (value (P_TCP_ACK_ d) p) in
  '(updated_ok, ssn) ← update flags seq ack data_len (dir p) ssn;
  let d := set_table (lru_store ssn (ssn_table_ d)) d in
  let p :=
    if (updated_ok : bool) then
      let to_server := to_server (dir p) ssn in
      let data := payload data_len p in
      let p := copy (P_TO_SERVER_ d) (VarBool to_server) p in
      if is_data_available (dir p) ssn then
        if 0 <? data_len
        then push_event (EV_DATA_ d) (set (P_SEG_ d) data p)
        else p
      else p
    else p in
  let server := server_stat ssn in
  let client := client_stat ssn in
  let p := copy (P_SERVER_STAT_ d) (VarStat server) p in
  let p := copy (P_CLIENT_STAT_ d) (VarStat client) p in
  Some (mkDecoded true d p ssn).

End Decoder.

(** ** A time wheel *)

(** Modelled from the spec: a table that meets the contract of [LRUHash]
    ([proto/utils/lru_hash.hpp] is not part of the sources at hand): a wheel
    of buckets read from the cursor and a queue of expired entries.  [prog]
    moves the buckets it passes to the queue, [pop] takes the head of the
    queue, [get] searches the live buckets.  The eviction on overflow that
    the spec mentions is left out: the results below are stated for every
    table that meets [LRUHashLaws], and this one serves to run them. *)
Record Wheel : Set := mkWheel {
  slots : list (list TcpSession);
  expired : list TcpSession
}.

Definition same_flow (h : Z) (key : list Z) (len : Z) (e : TcpSession) : bool :=
  (hash e =? h) && ssn_match key len e.

Definition wheel_new (timer_size hash_size : Z) : Wheel :=
  mkWheel (replicate (Z.to_nat timer_size) []) [].
Definition wheel_get (h : Z) (key : list Z) (len : Z) (w : Wheel) : option TcpSession :=
  List.find (same_flow h key len) (concat (slots w)).
Definition wheel_put (ttl : Z) (e : TcpSession) (w : Wheel) : Wheel :=
  mkWheel (alter (λ b, b ++ [e]) (Z.to_nat ttl) (slots w)) (expired w).
Definition wheel_tick (w : Wheel) : Wheel :=
  match slots w with
  | [] => w
  | b :: bs => mkWheel (bs ++ [[]]) (expired w ++ b)
  end.
Definition wheel_prog (delta : Z) (w : Wheel) : Wheel :=
  Nat.iter (Z.to_nat delta) wheel_tick w.
Definition wheel_pop (w : Wheel) : option (TcpSession * Wheel) :=
  match expired w with
  | [] => None
  | e :: es => Some (e, mkWheel (slots w) es)
  end.
Definition wheel_store (s : TcpSession) (w : Wheel) : Wheel :=
  let put_back e := if same_flow (hash s) (key_ s) (len_ s) e then s else e in
  mkWheel (map (map put_back) (slots w)) (map put_back (expired w)).

#[export] Instance Wheel_LRUHash : LRUHash Wheel := {|
  lru_new := wheel_new;
  lru_get := wheel_get;
  lru_put := wheel_put;
  lru_prog := wheel_prog;
  lru_pop := wheel_pop;
  lru_store := wheel_store;
  lru_pending := λ w, length (expired w)
|}.

(** ** Notions used in the statements *)

(** The flags as [update] masks them. *)
Definition masked (flags : Z) : Z :=
  Z.land flags (Z.lor (Z.lor (Z.lor FIN SYN) RST) ACK).

(** The endpoint that [update] takes for the sender of a segment. *)
Definition sender_of (dir : FlowDir) (s : TcpSession) : Node :=
  if to_server dir s then client_ s else server_ s.

(** The value [update] returns: the two guards. *)
Definition update_accepts (flags seq ack : Z) (dir : FlowDir) (s : TcpSession) : bool :=
  if FlowDir_eqb (dir_ s) DIR_NIL
  then masked flags =? SYN
  else check_seq seq ack (sender_of dir s).

(** A segment that fixes the direction of a session without one. *)
Definition fixes_dir (g : Segment) : bool :=
  (masked (seg_flags g) =? SYN) && negb (FlowDir_eqb (seg_dir g) DIR_NIL).

(** The endpoint whose state [is_data_available] reads. *)
Definition data_sender (dir : FlowDir) (s : TcpSession) : Node :=
  if FlowDir_eqb (dir_ s) dir then client_ s else server_ s.

(** Calls on one endpoint. *)
Inductive Call : Set :=
| CallSend (flags seq ack data_len : Z)
| CallRecv (flags seq ack data_len : Z).

Definition call_len (c : Call) : Z :=
  match c with CallSend _ _ _ l | CallRecv _ _ _ l => l end.
Definition call_flags (c : Call) : Z :=
  match c with CallSend f _ _ _ | CallRecv f _ _ _ => f end.

Definition call (c : Call) (n : Node) : option (bool * Node) :=
  match c with
  | CallSend f s a l => send f s a l n
  | CallRecv f s a l => recv f s a l n
  end.

Fixpoint calls (cs : list Call) (n : Node) : option Node :=
  match cs with
  | [] => Some n
  | c :: cs => r ← call c n; calls cs r.2
  end.

Definition total_len (cs : list Call) : Z :=
  fold_right (λ c acc, call_len c + acc) 0 cs.

(** The header fields as [decode] reads them off the property. *)
Definition tcp_flags {T : Type} (d : TcpSsnDecoder T) (p : Property) : Z :=
  ntoh 1 (value (P_TCP_FLAGS_ d) p).
Definition tcp_seq {T : Type} (d : TcpSsnDecoder T) (p : Property) : Z :=
  ntoh 4 (value (P_TCP_SEQ_ d) p).
Definition tcp_ack {T : Type} (d : TcpSsnDecoder T) (p : Property) : Z :=
  ntoh 4 (value (P_TCP_ACK_ d) p).

(** What [decode] writes on the property, given the result of [update]. *)
Definition emitted {T : Type} (d : TcpSsnDecoder T) (ok : bool) (s : TcpSession)
           (p : Property) : Property :=
  let p1 :=
    if ok then
      let p0 := copy (P_TO_SERVER_ d) (VarBool (to_server (dir p) s)) p in
      if is_data_available (dir p) s && (0 <? remain p)
      then push_event (EV_DATA_ d) (set (P_SEG_ d) (payload (remain p) p) p0)
      else p0
    else p in
  copy (P_CLIENT_STAT_ d) (VarStat (client_stat s))
    (copy (P_SERVER_STAT_ d) (VarStat (server_stat s)) p1).


(** Successive packets through one decoder. *)
Fixpoint decodes {T : Type} `{LRUHash T} (ps : list Property) (d : TcpSsnDecoder T)
  : option (list (Decoded T)) :=
  match ps with
  | [] => Some []
  | p :: ps =>
      r ← decode d p;
      rs ← decodes ps (dec r);
      Some (r :: rs)
  end.

(** What a handler sees of a decoded packet: the events, the attributes that
    were added, and the two states. *)
Definition observed {T : Type} (p : Property) (r : Decoded T)
  : list Z * list (Z * Var) * TcpStat * TcpStat :=
  (events (prop r), drop (length (vals p)) (vals (prop r)),
   client_stat (ssn r), server_stat (ssn r)).

(** ** Scenarios *)

(** The three-way handshake, and a first segment of 100 bytes. *)
Definition handshake : list Segment :=
  [mkSegment DIR_L2R SYN 1000 0 0;
   mkSegment DIR_R2L (Z.lor SYN ACK) 5000 1001 0;
   mkSegment DIR_L2R ACK 1001 5001 0].

Definition first_data : Segment := mkSegment DIR_L2R ACK 1001 5001 100.

(** The session after [gs], from a new one. *)
Definition session_after (gs : list Segment) : TcpSession :=
  match updates gs (TcpSession_new [] 0 0) with
  | Some r => r.2
  | None => TcpSession_new [] 0 0
  end.

(** The session after the handshake and the first segment. *)
Definition established : TcpSession := session_after (handshake ++ [first_data]).

(** The registry as the TCP header decoder leaves it. *)
Definition upstream : NetDec :=
  mkNetDec [] ["tcp.header"; "tcp.seq"; "tcp.ack"; "tcp.flags"]%string.

(** A decoder over the time wheel, constructed and set up. *)
Definition wheel_decoder : TcpSsnDecoder Wheel :=
  let '(d, nd) := TcpSsnDecoder_new upstream in setup nd d.

Definition be_encode32 (x : Z) : list Z :=
  [x / 2 ^ 24 mod 256; x / 2 ^ 16 mod 256; x / 2 ^ 8 mod 256; x mod 256].

(** A packet as it reaches the decoder, the TCP header fields attached. *)
Definition tcp_packet (label : list Z) (h tv : Z) (g : Segment) (data : list Z)
  : Property :=
  mkProperty tv (seg_dir g) data label h
    [(lookup_value_id "tcp.seq" upstream, VarBytes (be_encode32 (seg_seq g)));
     (lookup_value_id "tcp.ack" upstream, VarBytes (be_encode32 (seg_ack g)));
     (lookup_value_id "tcp.flags" upstream, VarBytes [seg_flags g])]
    [].

Definition flow_a : list Z := [10; 0; 0; 1; 10; 0; 0; 2; 4; 210; 0; 80].
Definition flow_b : list Z := [10; 0; 0; 3; 10; 0; 0; 4; 4; 211; 0; 80].

Definition handshake_packets : list Property :=
  map (λ g, tcp_packet flow_a 7 1000 g []) handshake.
Definition data_packet : Property :=
  tcp_packet flow_a 7 1000 first_data (replicate 100 65).
Definition pre_syn_packet : Property :=
  tcp_packet flow_a 7 1000 (mkSegment DIR_L2R ACK 1001 5001 50) (replicate 50 65).

(** The decoder that has seen [ps]. *)
Definition decoder_after (ps : list Property) (d : TcpSsnDecoder Wheel)
  : TcpSsnDecoder Wheel :=
  match decodes ps d with
  | Some rs => default d (dec <$> last rs)
  | None => d
  end.

(** The result of [decode], for a call that is known to return. *)
Definition decoded (d : TcpSsnDecoder Wheel) (p : Property) : Decoded Wheel :=
  default (mkDecoded false d p (TcpSession_new [] 0 0)) (decode d p).

(** A second flow, 301 seconds after the first. *)
Definition first_packet : Property :=
  tcp_packet flow_a 7 1000 (mkSegment DIR_L2R SYN 1000 0 0) [].
Definition heartbeat : Property :=
  tcp_packet flow_b 9 1301 (mkSegment DIR_L2R SYN 7000 0 0) [].

(** What [timeout_session] does at the heartbeat. *)
Definition heartbeat_timeout : TcpSsnDecoder Wheel * TimeoutLog :=
  default (wheel_decoder, mkTimeoutLog [] [])
          (timeout_session 1301 (decoder_after [first_packet] wheel_decoder)).

(** ** The rest of the source *)

(** The value of a [TcpStat] in the [enum]. *)
Definition stat_rank (st : TcpStat) : Z :=
  match st with
  | CLOSED => 0
  | LISTEN => 1
  | SYN_SENT => 2
  | SYN_RCVD => 3
  | ESTABLISHED => 4
  | CLOSING => 5
  | TIME_WAIT => 6
  end.

(** The arrows of the [switch] in [Node::send]: from a state, the states
    that a call may leave. *)
Definition send_arrow (st st' : TcpStat) : bool :=
  match st, st' with
  | CLOSED, (CLOSED | SYN_SENT)
  | LISTEN, (LISTEN | SYN_RCVD)
  | SYN_SENT, (SYN_SENT | ESTABLISHED)
  | SYN_RCVD, (ESTABLISHED | CLOSING)
  | ESTABLISHED, (ESTABLISHED | CLOSING)
  | CLOSING, CLOSING
  | TIME_WAIT, TIME_WAIT => true
  | _, _ => false
  end.

(** The arrows of the [switch] in [Node::recv]. *)
Definition recv_arrow (st st' : TcpStat) : bool :=
  match st, st' with
  | CLOSED, (CLOSED | LISTEN)
  | LISTEN, LISTEN
  | SYN_SENT, SYN_SENT
  | SYN_RCVD, SYN_RCVD
  | ESTABLISHED, ESTABLISHED
  | CLOSING, (CLOSING | TIME_WAIT)
  | TIME_WAIT, TIME_WAIT => true
  | _, _ => false
  end.

(** [TcpSsnDecoder::VarStat::repr], on the state that the attribute holds. *)
Definition repr (st : TcpStat) : string :=
  match st with
  | CLOSED => "CLOSED"
  | LISTEN => "LISTEN"
  | SYN_SENT => "SYN_SENT"
  | SYN_RCVD => "SYN_RCVD"
  | ESTABLISHED => "ESTABLISHED"
  | TIME_WAIT => "TIME_WAIT"
  | CLOSING => "CLOSING"
  end.

(** The other endpoint. *)
Definition peer (sd : Side) : Side :=
  match sd with Client => Server | Server => Client end.

(** What holds of an endpoint however it was driven from [Node()]. *)
Record node_inv (n : Node) : Prop := mk_node_inv {
  inv_avail_seq : avail_seq_ n = true ↔ 2 ≤ stat_rank (stat_ n);
  inv_sent_len : stat_rank (stat_ n) < 4 → sent_len_ n = 0;
  inv_listen : stat_ n = LISTEN ∨ stat_ n = SYN_RCVD → avail_ack_ n = true;
  inv_recv_fin : recv_fin_ n = true → 4 ≤ stat_rank (stat_ n);
  inv_recv_finack : recv_finack_ n = true → 5 ≤ stat_rank (stat_ n);
  inv_sent_finack : sent_finack_ n = true → recv_fin_ n = true;
  inv_time_wait :
    stat_ n = TIME_WAIT →
    recv_fin_ n = true ∧ recv_finack_ n = true ∧ sent_finack_ n = true
}.

(** What holds of a session however it was driven from its constructor:
    which states each endpoint can be in. *)
Record ssn_inv (s : TcpSession) : Prop := mk_ssn_inv {
  inv_client : client_stat s ≠ LISTEN ∧ client_stat s ≠ SYN_RCVD;
  inv_server : server_stat s ≠ SYN_SENT;
  inv_closed : client_stat s = CLOSED ↔ server_stat s = CLOSED;
  inv_dir_nil :
    dir_ s = DIR_NIL →
    stat_rank (client_stat s) ≤ 2 ∧ stat_rank (server_stat s) ≤ 1;
  inv_dir_set : dir_ s ≠ DIR_NIL → client_stat s ≠ CLOSED
}.

(** The endpoint after [cs], from a new one. *)
Definition node_after (cs : list Call) : Node :=
  default Node_new (calls cs Node_new).

(** The calls that the server endpoint sees when both sides close. *)
Definition server_closes : list Call :=
  [CallRecv SYN 1000 0 0; CallSend (Z.lor SYN ACK) 5000 1001 0;
   CallRecv ACK 1001 5001 0; CallSend ACK 5001 1001 0;
   CallRecv (Z.lor FIN ACK) 1001 5001 0; CallSend (Z.lor FIN ACK) 5001 1002 0;
   CallRecv ACK 1002 5002 0].

(** The segments of [gs] that [update] accepted, given what it returned. *)
Fixpoint accepted_of (gs : list Segment) (bs : list bool) : list Segment :=
  match gs, bs with
  | g :: gs, b :: bs => if b then g :: accepted_of gs bs else accepted_of gs bs
  | _, _ => []
  end.

(** ** [apps/swarm-dump.cc] *)

(** The capture sources of [swarm.hpp], which is not part of the sources at
    hand: only their constructors are used here, and [ready], which [main]
    receives as a parameter. *)
Inductive Swarm : Set :=
| SwarmFile (read_file : string)
| SwarmDev (interface : string).

(** The parsed options: [opt.is_set] and [opt[...]] for the two
    destinations that [main] declares. *)
Record Values : Set := mkValues {
  opt_read_file : option string;
  opt_interface : option string
}.

Definition EXIT_SUCCESS : Z := 0.
Definition EXIT_FAILURE : Z := 1.

(** What a run of [main] leaves: the exit status, the lines written to
    [std::cerr], and the source on which [start] was called. *)
Record Exit : Set := mkExit {
  exit_status : Z;
  cerr : list string;
  started : option Swarm
}.

(** [main] of [swarm-dump], after the options are parsed. *)
Definition main (ready : Swarm → bool) (opt : Values) : Exit :=
  let sw : option Swarm := None in
  let sw := match opt_read_file opt with
            | Some f => Some (SwarmFile f)
            | None => sw
            end in
  let sw := match opt_interface opt with
            | Some i => Some (SwarmDev i)
            | None => sw
            end in
  match sw with
  | None =>
      mkExit EXIT_FAILURE
             ["Need to specify pcap file (-r) or interface (-i)"%string] None
  | Some sw =>
      if negb (ready sw)
      then mkExit EXIT_FAILURE ["Not ready"%string] None
      else mkExit EXIT_SUCCESS [] (Some sw)
  end.

(** * Properties *)

Example handshake_states :
  (λ r, (client_stat r.2, server_stat r.2, r.1)) <$>
  updates handshake (TcpSession_new [] 0 0)
  = Some (ESTABLISHED, SYN_RCVD, [true; true; true]).
Proof. reflexivity. Qed.

(** The half-close: the server answers, both sides send their FIN, and the
    last ACK of the client takes the server to TIME_WAIT. *)
Example half_close_states :
  (λ r, (client_stat r.2, server_stat r.2, r.1)) <$>
  updates [mkSegment DIR_R2L ACK 5001 1101 0;
           mkSegment DIR_L2R (Z.lor FIN ACK) 1101 5001 0;
           mkSegment DIR_R2L (Z.lor FIN ACK) 5001 1102 0;
           mkSegment DIR_L2R ACK 1102 5002 0] established
  = Some (CLOSING, TIME_WAIT, [true; true; true; true]).
Proof. vm_compute. reflexivity. Qed.

Lemma masked_asserted flags : flags_asserted (masked flags) = true.
Proof.
  unfold flags_asserted, masked. apply Z.eqb_eq.
  replace (Z.lor (Z.lor (Z.lor SYN ACK) FIN) RST) with 23 by reflexivity.
  replace (Z.lor (Z.lor (Z.lor FIN SYN) RST) ACK) with 23 by reflexivity.
  rewrite Z.land_comm, <- Z.land_assoc, Z.land_lnot_diag.
  apply Z.land_0_r.
Qed.

Lemma send_asserted flags seq ack data_len n :
  flags_asserted flags = true →
  ∃ n', send flags seq ack data_len n = Some (true, n').
Proof. intros Hf. unfold send. rewrite Hf. simpl. eauto. Qed.

Lemma recv_asserted flags seq ack data_len n :
  flags_asserted flags = true →
  ∃ n', recv flags seq ack data_len n = Some (true, n').
Proof. intros Hf. unfold recv. rewrite Hf. simpl. eauto. Qed.

Lemma to_server_or_client dir s :
  dir_ s ≠ DIR_NIL → to_server dir s = negb (to_client dir s).
Proof. unfold to_server, to_client. destruct (dir_ s), dir; simpl; congruence. Qed.

(** The calls of [send] and [recv] that [update] makes, on masked flags, run
    to their end. *)
Ltac run_endpoint :=
  match goal with
  | |- context [send (masked ?f) ?s ?a ?l ?n] =>
      let E := fresh "Hsend" in
      destruct (send_asserted (masked f) s a l n (masked_asserted f)) as [? E];
      rewrite E; clear E; simpl
  | |- context [recv (masked ?f) ?s ?a ?l ?n] =>
      let E := fresh "Hrecv" in
      destruct (recv_asserted (masked f) s a l n (masked_asserted f)) as [? E];
      rewrite E; clear E; simpl
  end.

(** [update] runs to its end, and returns what its guards say. *)
Lemma update_total flags seq ack data_len dir s :
  ∃ s', update flags seq ack data_len dir s
        = Some (update_accepts flags seq ack dir s, s').
Proof.
  unfold update, update_accepts, sender_of. fold (masked flags).
  destruct (FlowDir_eqb (dir_ s) DIR_NIL) eqn:Hnil.
  - destruct (masked flags =? SYN); [|eauto].
    repeat run_endpoint. eauto.
  - assert (Hd : dir_ s ≠ DIR_NIL) by (destruct (dir_ s); simpl in Hnil; congruence).
    pose proof (to_server_or_client dir s Hd) as Hts.
    destruct (to_server dir s); simpl.
    + destruct (check_seq seq ack (client_ s)); [|eauto].
      repeat run_endpoint. eauto.
    + destruct (to_client dir s); [|discriminate]. simpl.
      destruct (check_seq seq ack (server_ s)); [|eauto].
      repeat run_endpoint. eauto.
Qed.

(** ** The endpoints never report failure *)

(** C10. [Node::send] and [Node::recv] return [true] on every input whose
    flags meet their assertion, and [update], which masks the flags before
    it calls them, returns exactly what its two guards say: whether the
    first segment is a SYN while the direction is unset, and [check_seq] of
    the sender afterwards. *)
Theorem send_recv_always_true :
  (∀ flags seq ack data_len n,
     flags_asserted flags = true →
     ∃ n', send flags seq ack data_len n = Some (true, n')) ∧
  (∀ flags seq ack data_len n,
     flags_asserted flags = true →
     ∃ n', recv flags seq ack data_len n = Some (true, n')) ∧
  (∀ flags seq ack data_len dir s,
     ∃ s', update flags seq ack data_len dir s
           = Some (if FlowDir_eqb (dir_ s) DIR_NIL
                   then masked flags =? SYN
                   else check_seq seq ack (sender_of dir s), s')).
Proof.
  split; [|split].
  - apply send_asserted.
  - apply recv_asserted.
  - apply update_total.
Qed.

Lemma send_recv_always_true_witness :
  (∃ n', send (Z.lor SYN ACK) 5000 1001 0 (set_stat LISTEN Node_new)
         = Some (true, n')) ∧
  (∃ n', recv (Z.lor FIN ACK) 1101 5001 0 (set_stat ESTABLISHED Node_new)
         = Some (true, n')).
Proof.
  split.
  - apply (proj1 send_recv_always_true (Z.lor SYN ACK) 5000 1001 0
             (set_stat LISTEN Node_new)).
    reflexivity.
  - apply (proj1 (proj2 send_recv_always_true) (Z.lor FIN ACK) 1101 5001 0
             (set_stat ESTABLISHED Node_new)).
    reflexivity.
Defined.

(** ** The acknowledgement number is not looked at *)

(** C9. Two calls of [update] that differ in [ack] only return the same
    boolean and leave the same session; the same holds for the three
    functions of an endpoint that [update] calls. *)
Theorem ack_unused :
  (∀ seq ack1 ack2 n, check_seq seq ack1 n = check_seq seq ack2 n) ∧
  (∀ flags seq ack1 ack2 data_len n,
     send flags seq ack1 data_len n = send flags seq ack2 data_len n) ∧
  (∀ flags seq ack1 ack2 data_len n,
     recv flags seq ack1 data_len n = recv flags seq ack2 data_len n) ∧
  (∀ flags seq ack1 ack2 data_len dir s,
     update flags seq ack1 data_len dir s = update flags seq ack2 data_len dir s).
Proof. split; [|split; [|split]]; reflexivity. Qed.

(** ** Sequence numbers *)

Lemma check_seq_spec seq ack n :
  check_seq seq ack n = true ↔
  (avail_seq_ n = false ∨ u32 (base_seq_ n + sent_len_ n + 1) ≤ seq) ∧
  (avail_ack_ n = false ∨ next_ack_ n ≠ 0).
Proof.
  unfold check_seq.
  destruct (avail_seq_ n), (avail_ack_ n); simpl;
    destruct (Z.leb_spec (u32 (base_seq_ n + sent_len_ n + 1)) seq);
    destruct (Z.eqb_spec (next_ack_ n) 0); simpl;
    intuition (try congruence; try lia).
Qed.

Lemma update_rejected flags seq ack data_len dir s :
  dir_ s ≠ DIR_NIL →
  check_seq seq ack (sender_of dir s) = false →
  update flags seq ack data_len dir s = Some (false, s).
Proof.
  intros Hd Hc. unfold update. unfold sender_of in Hc.
  pose proof (to_server_or_client dir s Hd) as Hts.
  destruct (FlowDir_eqb (dir_ s) DIR_NIL) eqn:Hnil.
  { destruct (dir_ s); simpl in Hnil; congruence. }
  destruct (to_server dir s); simpl.
  - by rewrite Hc.
  - destruct (to_client dir s); [|discriminate]. simpl. by rewrite Hc.
Qed.

(** C1, as the code has it. [check_seq] accepts a segment iff
    [(!avail_seq || base_seq + sent_len + 1 <= seq)], the sum taken in 32
    bits, and [(!avail_ack || next_ack != 0)]: a sequence number below the
    next expected one is refused, one ahead of it is accepted.  When
    [check_seq] refuses a segment of a session whose direction is set,
    [update] returns [false] and leaves the session as it was.  An endpoint
    with [base_seq = 1000] and [sent_len = 100] accepts exactly the
    sequence numbers from 1101 on, so 99999 passes; on the session that the
    handshake and a first segment of 100 bytes leave, the segment (L2R, ACK,
    99999, 10 bytes) is accepted and counted. *)
Theorem check_seq_accepts :
  (∀ seq ack n,
     check_seq seq ack n = true ↔
     (avail_seq_ n = false ∨ u32 (base_seq_ n + sent_len_ n + 1) ≤ seq) ∧
     (avail_ack_ n = false ∨ next_ack_ n ≠ 0)) ∧
  (∀ flags seq ack data_len dir s,
     dir_ s ≠ DIR_NIL →
     check_seq seq ack (sender_of dir s) = false →
     update flags seq ack data_len dir s = Some (false, s)) ∧
  (∀ seq ack n,
     avail_seq_ n = true → base_seq_ n = 1000 → sent_len_ n = 100 →
     avail_ack_ n = false ∨ next_ack_ n ≠ 0 →
     (check_seq seq ack n = true ↔ 1101 ≤ seq)) ∧
  (client_stat established = ESTABLISHED ∧
   base_seq_ (client_ established) = 1000 ∧
   sent_len_ (client_ established) = 100 ∧
   ∀ ack, check_seq 99999 ack (client_ established) = true ∧
          ∃ s', update ACK 99999 ack 10 DIR_L2R established = Some (true, s') ∧
                sent_len_ (client_ s') = 110).
Proof.
  split; [exact check_seq_spec|].
  split; [exact update_rejected|].
  split.
  - intros seq ack n Hs Hb Hl Ha. rewrite check_seq_spec, Hs, Hb, Hl.
    change (u32 (1000 + 100 + 1)) with 1101. intuition congruence.
  - vm_compute. repeat split. eexists. split; reflexivity.
Qed.

Lemma check_seq_accepts_witness :
  update ACK 1100 5001 1 DIR_L2R established = Some (false, established) ∧
  (check_seq 99999 5001 (client_ established) = true ↔ 1101 ≤ 99999).
Proof.
  split.
  - apply (proj1 (proj2 check_seq_accepts)).
    + vm_compute. discriminate.
    + vm_compute. reflexivity.
  - apply (proj1 (proj2 (proj2 check_seq_accepts))).
    + vm_compute. reflexivity.
    + vm_compute. reflexivity.
    + vm_compute. reflexivity.
    + right. vm_compute. discriminate.
Defined.

(** C1, as the spec words it, fails: the endpoint with [base_seq = 1000] and
    [sent_len = 100] accepts the sequence number 99999, although
    [base_seq + sent_len + 1 >= seq] is false there. *)
Lemma check_seq_jump_accepted :
  stat (client_ established) = ESTABLISHED ∧
  base_seq_ (client_ established) = 1000 ∧
  sent_len_ (client_ established) = 100 ∧
  check_seq 99999 5001 (client_ established) = true ∧
  ¬ (avail_seq_ (client_ established) = false ∨
     99999 ≤ base_seq_ (client_ established)
             + sent_len_ (client_ established) + 1).
Proof.
  vm_compute. repeat split. intros [H|H]; [discriminate|]. by apply H.
Qed.

(** ** The direction of a session *)

Lemma update_dir flags seq ack data_len dir s b s' :
  update flags seq ack data_len dir s = Some (b, s') →
  dir_ s' = if FlowDir_eqb (dir_ s) DIR_NIL && (masked flags =? SYN)
            then dir else dir_ s.
Proof.
  unfold update. fold (masked flags).
  destruct (FlowDir_eqb (dir_ s) DIR_NIL); simpl.
  - destruct (masked flags =? SYN).
    + destruct (send _ _ _ _ _) as [[? ?]|]; simpl; [|discriminate].
      destruct (recv _ _ _ _ _) as [[? ?]|]; simpl; [|discriminate].
      by intros [= <- <-].
    + by intros [= <- <-].
  - destruct (to_server dir s); simpl.
    + destruct (check_seq _ _ _); [|by intros [= <- <-]].
      destruct (send _ _ _ _ _) as [[? ?]|]; simpl; [|discriminate].
      destruct (recv _ _ _ _ _) as [[? ?]|]; simpl; [|discriminate].
      by intros [= <- <-].
    + destruct (to_client dir s); simpl; [|discriminate].
      destruct (check_seq _ _ _); [|by intros [= <- <-]].
      destruct (send _ _ _ _ _) as [[? ?]|]; simpl; [|discriminate].
      destruct (recv _ _ _ _ _) as [[? ?]|]; simpl; [|discriminate].
      by intros [= <- <-].
Qed.

Lemma updates_total gs : ∀ s, ∃ r, updates gs s = Some r.
Proof.
  induction gs as [|g gs IH]; intros s; simpl; [eauto|].
  unfold update_seg.
  destruct (update_total (seg_flags g) (seg_seq g) (seg_ack g) (seg_len g)
              (seg_dir g) s) as [s' ->]. simpl.
  destruct (IH s') as [r ->]. simpl. eauto.
Qed.

Lemma updates_dir gs : ∀ s r,
  updates gs s = Some r →
  (dir_ r.2 = DIR_NIL ↔ dir_ s = DIR_NIL ∧ Forall (λ g, fixes_dir g = false) gs).
Proof.
  induction gs as [|g gs IH]; intros s r; simpl.
  - intros [= <-]. simpl. split; [by split|tauto].
  - destruct (update_seg g s) as [[b s1]|] eqn:Hu; simpl; [|discriminate].
    destruct (updates gs s1) as [r1|] eqn:Hr; simpl; [|discriminate].
    intros [= <-]. simpl. rewrite (IH _ _ Hr).
    apply update_dir in Hu. rewrite Hu, Forall_cons. unfold fixes_dir.
    destruct (dir_ s), (masked (seg_flags g) =? SYN), (seg_dir g); simpl;
      intuition congruence.
Qed.

Lemma update_ignores_non_syn flags seq ack data_len dir s :
  dir_ s = DIR_NIL → masked flags ≠ SYN →
  update flags seq ack data_len dir s = Some (false, s).
Proof.
  intros Hd Hf. unfold update. fold (masked flags). rewrite Hd. simpl.
  by destruct (Z.eqb_spec (masked flags) SYN).
Qed.

(** C4, as the code has it. After any sequence of calls of [update] on a
    new session, [dir] is NIL iff none of the segments had both masked flags
    that are exactly SYN and a direction other than NIL; and while [dir] is
    NIL, [update] returns [false] on every segment whose masked flags are
    not exactly SYN, leaving the session as it was. *)
Theorem dir_nil_iff_no_directed_syn :
  (∀ key key_len h gs,
     ∃ r, updates gs (TcpSession_new key key_len h) = Some r ∧
          (dir_ r.2 = DIR_NIL ↔ Forall (λ g, fixes_dir g = false) gs)) ∧
  (∀ flags seq ack data_len dir s,
     dir_ s = DIR_NIL → masked flags ≠ SYN →
     update flags seq ack data_len dir s = Some (false, s)).
Proof.
  split; [|exact update_ignores_non_syn].
  intros key key_len h gs.
  destruct (updates_total gs (TcpSession_new key key_len h)) as [r Hr].
  exists r. split; [done|]. rewrite (updates_dir _ _ _ Hr). simpl. tauto.
Qed.

Lemma dir_nil_iff_no_directed_syn_witness :
  dir_ (TcpSession_new [] 0 0) = DIR_NIL ∧ masked ACK ≠ SYN ∧
  update ACK 1001 5001 50 DIR_L2R (TcpSession_new [] 0 0)
  = Some (false, TcpSession_new [] 0 0).
Proof.
  split; [reflexivity|]. split; [discriminate|].
  apply (proj2 dir_nil_iff_no_directed_syn); [reflexivity|discriminate].
Defined.

(** C4, as the spec words it, fails: a SYN that comes with the direction NIL
    is accepted by [update], and [dir] is NIL after it. *)
Lemma syn_without_direction :
  updates [mkSegment DIR_NIL SYN 1000 0 0] (TcpSession_new [] 0 0)
  = Some ([true], session_after [mkSegment DIR_NIL SYN 1000 0 0]) ∧
  ¬ (dir_ (session_after [mkSegment DIR_NIL SYN 1000 0 0]) = DIR_NIL ↔
     Forall (λ g, masked (seg_flags g) ≠ SYN) [mkSegment DIR_NIL SYN 1000 0 0]).
Proof.
  split; [reflexivity|].
  intros [Hd _]. specialize (Hd eq_refl).
  apply Forall_cons in Hd as [Hd _]. by apply Hd.
Qed.

(** ** The payload counter *)

Lemma u32_small x : 0 ≤ x < 2 ^ 32 → u32 x = x.
Proof. intros Hx. unfold u32. by apply Z.mod_small. Qed.

Lemma send_sent_len flags seq ack data_len n b n' :
  send flags seq ack data_len n = Some (b, n') →
  sent_len_ n' = if TcpStat_eqb (stat_ n') ESTABLISHED
                 then u32 (sent_len_ n + data_len) else sent_len_ n.
Proof.
  unfold send. destruct (negb (flags_asserted flags)); [discriminate|].
  cbv zeta. intros [= <- <-].
  match goal with
  | |- sent_len_ (if TcpStat_eqb (stat_ ?m) ESTABLISHED then _ else _) = _ =>
      assert (Hm : sent_len_ m = sent_len_ n);
      [|revert Hm; generalize m; intros m' Hm;
        destruct (TcpStat_eqb (stat_ m') ESTABLISHED) eqn:E; simpl;
        rewrite ?E, ?Hm; reflexivity]
  end.
  destruct (stat_ n); simpl;
    repeat match goal with
           | |- context [if ?c then _ else _] => destruct c; simpl
           end; reflexivity.
Qed.

Lemma recv_sent_len flags seq ack data_len n b n' :
  recv flags seq ack data_len n = Some (b, n') → sent_len_ n' = sent_len_ n.
Proof.
  unfold recv. destruct (negb (flags_asserted flags)); [discriminate|].
  cbv zeta. intros [= <- <-].
  match goal with
  | |- sent_len_ (if ?c then _ else ?m) = _ =>
      assert (Hm : sent_len_ m = sent_len_ n); [|by destruct c]
  end.
  destruct (stat_ n); simpl;
    repeat match goal with
           | |- context [if ?c then _ else _] => destruct c; simpl
           end; reflexivity.
Qed.

Lemma call_sent_len_bounds c n b n' :
  call c n = Some (b, n') →
  0 ≤ sent_len_ n → 0 ≤ call_len c → sent_len_ n + call_len c < 2 ^ 32 →
  sent_len_ n ≤ sent_len_ n' ≤ sent_len_ n + call_len c.
Proof.
  intros Hc H0 Hl Hb. destruct c as [f s a l|f s a l]; simpl in *.
  - apply send_sent_len in Hc. rewrite Hc.
    destruct (TcpStat_eqb _ _); [|lia]. rewrite u32_small; lia.
  - apply recv_sent_len in Hc. lia.
Qed.

Lemma calls_sent_len cs : ∀ n,
  0 ≤ sent_len_ n →
  Forall (λ c, 0 ≤ call_len c ∧ flags_asserted (call_flags c) = true) cs →
  sent_len_ n + total_len cs < 2 ^ 32 →
  ∃ n', calls cs n = Some n' ∧
        sent_len_ n ≤ sent_len_ n' ≤ sent_len_ n + total_len cs.
Proof.
  induction cs as [|c cs IH]; intros n H0 Hcs Hb; simpl in *.
  - exists n. split; [done|lia].
  - apply Forall_cons in Hcs as [[Hl Hf] Hcs].
    assert (Ht : 0 ≤ total_len cs).
    { clear -Hcs. induction Hcs as [|c cs [Hc _] _ IH]; simpl; lia. }
    assert (∃ n1, call c n = Some (true, n1)) as [n1 Hn1].
    { destruct c; simpl in *; [by apply send_asserted|by apply recv_asserted]. }
    rewrite Hn1. simpl.
    pose proof (call_sent_len_bounds _ _ _ _ Hn1 H0 Hl ltac:(lia)) as Hs.
    destruct (IH n1 ltac:(lia) Hcs ltac:(lia)) as (n' & Hn' & Hb').
    exists n'. split; [done|lia].
Qed.

(** C6, as the code has it. [sent_len] is a 32-bit counter: [send] adds
    [data_len] to it modulo [2^32] when the endpoint is ESTABLISHED after
    the transition and leaves it alone otherwise, and [recv] never touches
    it.  Over any sequence of calls whose payload lengths keep the sum
    below [2^32] the counter does not decrease. *)
Theorem sent_len_monotone_below_wrap :
  (∀ flags seq ack data_len n b n',
     send flags seq ack data_len n = Some (b, n') →
     sent_len_ n' = if TcpStat_eqb (stat_ n') ESTABLISHED
                    then u32 (sent_len_ n + data_len) else sent_len_ n) ∧
  (∀ flags seq ack data_len n b n',
     recv flags seq ack data_len n = Some (b, n') → sent_len_ n' = sent_len_ n) ∧
  (∀ cs n,
     0 ≤ sent_len_ n →
     Forall (λ c, 0 ≤ call_len c ∧ flags_asserted (call_flags c) = true) cs →
     sent_len_ n + total_len cs < 2 ^ 32 →
     ∃ n', calls cs n = Some n' ∧
           sent_len_ n ≤ sent_len_ n' ≤ sent_len_ n + total_len cs).
Proof.
  split; [exact send_sent_len|]. split; [exact recv_sent_len|exact calls_sent_len].
Qed.

Lemma sent_len_monotone_below_wrap_witness :
  sent_len_ (set_sent_len 100 (set_updated false (client_ established))) = 100 ∧
  sent_len_ (server_ established) = sent_len_ (server_ (session_after handshake)) ∧
  ∃ n', calls [CallSend SYN 1000 0 0; CallSend ACK 1001 5001 0;
               CallSend ACK 1001 5001 100] Node_new = Some n' ∧
        sent_len_ Node_new ≤ sent_len_ n' ≤ sent_len_ Node_new + 100.
Proof.
  split; [|split].
  - apply (proj1 sent_len_monotone_below_wrap ACK 1001 5001 0
             (client_ established) true).
    vm_compute. reflexivity.
  - apply (proj1 (proj2 sent_len_monotone_below_wrap) ACK 1001 5001 100
             (server_ (session_after handshake)) true).
    vm_compute. reflexivity.
  - apply (proj2 (proj2 sent_len_monotone_below_wrap)
             [CallSend SYN 1000 0 0; CallSend ACK 1001 5001 0;
              CallSend ACK 1001 5001 100] Node_new).
    + vm_compute. discriminate.
    + repeat constructor; vm_compute; discriminate.
    + vm_compute. reflexivity.
Defined.

Lemma calls_app cs1 cs2 n :
  calls (cs1 ++ cs2) n = n1 ← calls cs1 n; calls cs2 n1.
Proof.
  revert n. induction cs1 as [|c cs1 IH]; intros n; simpl; [done|].
  destruct (call c n) as [[b n1]|]; simpl; [apply IH|done].
Qed.

Lemma u32_add_l x y : u32 (u32 x + y) = u32 (x + y).
Proof. unfold u32. apply Zplus_mod_idemp_l. Qed.

Lemma u32_idemp x : u32 (u32 x) = u32 x.
Proof. unfold u32. by apply Z.mod_mod. Qed.

Lemma send_ack_established seq ack d n :
  stat_ n = ESTABLISHED → recv_fin_ n = false →
  send ACK seq ack d n
  = Some (true, set_sent_len (u32 (sent_len_ n + d)) (set_updated false n)).
Proof.
  intros Hst Hrf. unfold send.
  change (negb (flags_asserted ACK)) with false. cbv zeta iota.
  change (stat_ (set_updated false n)) with (stat_ n). rewrite Hst.
  change (0 <? Z.land ACK FIN) with false.
  change (0 <? Z.land ACK ACK) with true. cbv iota.
  change (recv_fin_ (set_updated false n)) with (recv_fin_ n). rewrite Hrf.
  simpl. by rewrite Hst.
Qed.

(** An established endpoint that sends [k] segments of [d] bytes. *)
Lemma calls_repeat_send k : ∀ seq ack d n,
  stat_ n = ESTABLISHED → recv_fin_ n = false →
  u32 (sent_len_ n) = sent_len_ n →
  ∃ n', calls (repeat (CallSend ACK seq ack d) k) n = Some n' ∧
        stat_ n' = ESTABLISHED ∧ recv_fin_ n' = false ∧
        sent_len_ n' = u32 (sent_len_ n + Z.of_nat k * d).
Proof.
  induction k as [|k IH]; intros seq ack d n Hst Hrf Hw.
  - exists n. simpl. by rewrite Z.add_0_r, Hw.
  - cbn [repeat calls call]. rewrite send_ack_established by done.
    cbn [mbind option_bind snd].
    destruct (IH seq ack d
                (set_sent_len (u32 (sent_len_ n + d)) (set_updated false n)))
      as (n' & Hn' & Hs' & Hr' & Hl'); [done|done|apply u32_idemp|].
    exists n'. repeat split; [done|done|done|].
    rewrite Hl'. cbn [sent_len_ set_sent_len]. rewrite u32_add_l.
    f_equal. lia.
Qed.

(** C6, as the spec words it, fails: an endpoint that has sent the SYN, the
    ACK of the handshake and then 65537 segments of 65535 bytes has counted
    [2^32 - 1] bytes; with one more such segment its counter drops to
    65534. *)
Lemma sent_len_wraps :
  ∃ n n',
    calls ([CallSend SYN 1000 0 0; CallSend ACK 1001 5001 0]
           ++ repeat (CallSend ACK 1001 5001 65535) (Z.to_nat 65537)) Node_new
    = Some n ∧
    call (CallSend ACK 1001 5001 65535) n = Some (true, n') ∧
    sent_len_ n = 4294967295 ∧ sent_len_ n' = 65534 ∧
    ¬ sent_len_ n ≤ sent_len_ n'.
Proof.
  destruct (calls_repeat_send (Z.to_nat 65537) 1001 5001 65535
              (mkNode 1000 0 0 true false ESTABLISHED false false false true))
    as (n & Hn & Hst & Hrf & Hl); [reflexivity..|].
  rewrite Z2Nat.id in Hl by lia. cbn [sent_len_] in Hl.
  change (u32 (0 + 65537 * 65535)) with 4294967295 in Hl.
  exists n, (set_sent_len (u32 (sent_len_ n + 65535)) (set_updated false n)).
  split; [|split; [|split; [|split]]].
  - rewrite calls_app. exact Hn.
  - cbn [call]. by apply send_ack_established.
  - exact Hl.
  - cbn [sent_len_ set_sent_len]. rewrite Hl. reflexivity.
  - cbn [sent_len_ set_sent_len]. rewrite Hl.
    change (u32 (4294967295 + 65535)) with 65534. lia.
Qed.

(** ** The decoder *)


Section DecoderFacts.
Context {T : Type} `{LRUHash T}.

Lemma fetch_session_ids p d :
  let d' := (fetch_session p d).2 in
  EV_EST_ d' = EV_EST_ d ∧ EV_DATA_ d' = EV_DATA_ d ∧ P_SEG_ d' = P_SEG_ d ∧
  P_TO_SERVER_ d' = P_TO_SERVER_ d ∧ P_SERVER_STAT_ d' = P_SERVER_STAT_ d ∧
  P_CLIENT_STAT_ d' = P_CLIENT_STAT_ d ∧ P_TCP_SEQ_ d' = P_TCP_SEQ_ d ∧
  P_TCP_ACK_ d' = P_TCP_ACK_ d ∧ P_TCP_FLAGS_ d' = P_TCP_FLAGS_ d.
Proof.
  unfold fetch_session. destruct (lru_get _ _ _ _); simpl; repeat split.
Qed.

Lemma timeout_session_ids tv d d' log :
  timeout_session tv d = Some (d', log) →
  EV_EST_ d' = EV_EST_ d ∧ EV_DATA_ d' = EV_DATA_ d ∧ P_SEG_ d' = P_SEG_ d ∧
  P_TO_SERVER_ d' = P_TO_SERVER_ d ∧ P_SERVER_STAT_ d' = P_SERVER_STAT_ d ∧
  P_CLIENT_STAT_ d' = P_CLIENT_STAT_ d ∧ P_TCP_SEQ_ d' = P_TCP_SEQ_ d ∧
  P_TCP_ACK_ d' = P_TCP_ACK_ d ∧ P_TCP_FLAGS_ d' = P_TCP_FLAGS_ d.
Proof.
  unfold timeout_session.
  destruct ((0 <? last_ts_ d) && (last_ts_ d <? tv));
    (destruct (drain _ _ _) as [[t l]|]; simpl; [|discriminate]);
    intros [= <- <-]; simpl; repeat split.
Qed.

(** The steps of one call of [decode]. *)
Lemma decode_inv d p r :
  decode d p = Some r →
  ∃ d1 log ok s1,
    timeout_session (tv_sec p) d = Some (d1, log) ∧
    update (tcp_flags d p) (tcp_seq d p) (tcp_ack d p) (remain p) (dir p)
           (fetch_session p d1).1 = Some (ok, s1) ∧
    r = mkDecoded true
          (set_table (lru_store s1 (ssn_table_ (fetch_session p d1).2))
                     (fetch_session p d1).2)
          (emitted d ok s1 p) s1.
Proof.
  unfold decode.
  destruct (timeout_session (tv_sec p) d) as [[d1 log]|] eqn:Hto;
    simpl; [|discriminate].
  destruct (timeout_session_ids _ _ _ _ Hto)
    as (He & Hd & Hg & Hts & Hss & Hcs & Hq & Ha & Hf).
  pose proof (fetch_session_ids p d1) as Hids. simpl in Hids.
  destruct Hids as (He' & Hd' & Hg' & Hts' & Hss' & Hcs' & Hq' & Ha' & Hf').
  destruct (fetch_session p d1) as [s0 d2] eqn:Hfs. simpl in *.
  unfold tcp_flags, tcp_seq, tcp_ack.
  rewrite <- Hq, <- Ha, <- Hf, <- Hq', <- Ha', <- Hf'.
  destruct (update _ _ _ _ _ s0) as [[ok s1]|] eqn:Hu; simpl; [|discriminate].
  intros [= <-]. exists d1, log, ok, s1.
  split; [done|]. rewrite Hfs. split; [exact Hu|]. simpl.
  unfold emitted. f_equal.
  rewrite <- Hd, <- Hg, <- Hts, <- Hss, <- Hcs,
          <- Hd', <- Hg', <- Hts', <- Hss', <- Hcs'.
  destruct ok; [|reflexivity]. simpl.
  destruct (is_data_available (dir p) s1); simpl; [|reflexivity].
  destruct (0 <? remain p); reflexivity.
Qed.

(** [drain] stops on an empty queue, whatever the table. *)
Lemma drain_emptied fuel tv : ∀ t t' l,
  drain fuel tv t = Some (t', l) → lru_pop t' = None.
Proof.
  induction fuel as [|fuel IH]; intros t t' l; simpl.
  - destruct (lru_pop t) as [[e t1]|] eqn:Hp; [discriminate|].
    by intros [= <- <-].
  - destruct (lru_pop t) as [[e t1]|] eqn:Hp; [|by intros [= <- <-]].
    destruct (ts e + TIMEOUT <? tv).
    + destruct (drain fuel tv t1) as [[t2 l2]|] eqn:Hd; simpl; [|discriminate].
      intros [= <- <-]. eauto.
    + destruct (drain fuel tv (lru_put TIMEOUT e t1)) as [[t2 l2]|] eqn:Hd;
        simpl; [|discriminate].
      intros [= <- <-]. eauto.
Qed.




End DecoderFacts.

Example handshake_decoded :
  zip_with observed handshake_packets <$> decodes handshake_packets wheel_decoder
  = Some [([], [(5, VarBool true); (6, VarStat LISTEN); (7, VarStat SYN_SENT)],
           SYN_SENT, LISTEN);
          ([], [(5, VarBool false); (6, VarStat SYN_RCVD); (7, VarStat SYN_SENT)],
           SYN_SENT, SYN_RCVD);
          ([], [(5, VarBool true); (6, VarStat SYN_RCVD); (7, VarStat ESTABLISHED)],
           ESTABLISHED, SYN_RCVD)].
Proof. vm_compute. reflexivity. Qed.

Section DecoderTotal.
Context {T : Type} `{LRUHashLaws T}.




End DecoderTotal.

Section DecoderClaims.
Context {T : Type} `{LRUHash T}.

Lemma decode_rc (d : TcpSsnDecoder T) p r : decode d p = Some r → rc r = true.
Proof. intros Hr. by destruct (decode_inv _ _ _ Hr) as (?&?&?&?&_&_&->). Qed.

Lemma decode_events (d : TcpSsnDecoder T) p r :
  decode d p = Some r →
  events (prop r) = events p ∨
  events (prop r) = events p ++ [EV_DATA_ d] ∧
  0 < remain p ∧
  stat (data_sender (dir p) (ssn r)) = ESTABLISHED ∧
  updated (data_sender (dir p) (ssn r)) = false ∧
  (P_SEG_ d, VarBytes (payload (remain p) p)) ∈ vals (prop r).
Proof.
  intros Hr. destruct (decode_inv _ _ _ Hr) as (d1 & log & ok & s1 & _ & _ & ->).
  unfold emitted. cbn [prop ssn].
  destruct ok; [|by left].
  destruct (is_data_available (dir p) s1) eqn:Hda; [|by left].
  destruct (Z.ltb_spec 0 (remain p)) as [Hlen|Hlen]; [|by left].
  right. cbn. split; [done|]. split; [done|].
  unfold is_data_available in Hda. fold (data_sender (dir p) s1) in Hda.
  destruct (updated (data_sender (dir p) s1)); [done|].
  destruct (stat (data_sender (dir p) s1)); try done.
  repeat split. rewrite !elem_of_app, !list_elem_of_singleton. tauto.
Qed.

Lemma decode_event_ids (d : TcpSsnDecoder T) p r :
  decode d p = Some r →
  EV_EST_ (dec r) = EV_EST_ d ∧ EV_DATA_ (dec r) = EV_DATA_ d.
Proof.
  intros Hr. destruct (decode_inv _ _ _ Hr) as (d1 & log & ok & s1 & Hto & _ & ->).
  apply timeout_session_ids in Hto as (He & Hd & _).
  destruct (fetch_session_ids p d1) as (He' & Hd' & _).
  cbn [dec]. unfold set_table. cbn. split; congruence.
Qed.

Lemma new_decoder_events (nd : NetDec) :
  let dn := TcpSsnDecoder_new (T:=T) nd in
  nd_events dn.2 = nd_events nd ++ ["tcp_ssn.established"; "tcp_ssn.data"]%string ∧
  nd_events dn.2 !! Z.to_nat (EV_EST_ dn.1) = Some "tcp_ssn.established"%string ∧
  nd_events dn.2 !! Z.to_nat (EV_DATA_ dn.1) = Some "tcp_ssn.data"%string ∧
  EV_EST_ dn.1 ≠ EV_DATA_ dn.1.
Proof.
  cbn. rewrite <- app_assoc, !Nat2Z.id, length_app. cbn.
  split; [done|]. split; [|split].
  - by rewrite lookup_app_r, Nat.sub_diag.
  - rewrite lookup_app_r by lia.
    by replace (length (nd_events nd) + 1 - length (nd_events nd))%nat
      with 1%nat by lia.
  - lia.
Qed.

End DecoderClaims.



(** C8. The constructor registers both [tcp_ssn.established] and
    [tcp_ssn.data], under two different identifiers; [decode] pushes either
    nothing or the one event [tcp_ssn.data], and keeps the identifiers, so
    that over any sequence of packets [tcp_ssn.established] is never
    pushed. *)
Theorem established_never_pushed {T : Type} `{LRUHash T} :
  (∀ nd,
     let dn := TcpSsnDecoder_new (T:=T) nd in
     nd_events dn.2 !! Z.to_nat (EV_EST_ dn.1) = Some "tcp_ssn.established"%string ∧
     nd_events dn.2 !! Z.to_nat (EV_DATA_ dn.1) = Some "tcp_ssn.data"%string ∧
     EV_EST_ dn.1 ≠ EV_DATA_ dn.1) ∧
  (∀ (d : TcpSsnDecoder T) p r,
     decode d p = Some r →
     (events (prop r) = events p ∨ events (prop r) = events p ++ [EV_DATA_ d]) ∧
     EV_EST_ (dec r) = EV_EST_ d ∧ EV_DATA_ (dec r) = EV_DATA_ d) ∧
  (∀ ps (d : TcpSsnDecoder T) rs,
     EV_EST_ d ≠ EV_DATA_ d →
     decodes ps d = Some rs →
     Forall2 (λ p r, ∃ evs, events (prop r) = events p ++ evs ∧
                            EV_EST_ d ∉ evs) ps rs).
Proof.
  split; [|split].
  - intros nd. destruct (new_decoder_events (T:=T) nd) as (_ & He & Hd & Hne).
    by repeat split.
  - intros d p r Hr. split; [|exact (decode_event_ids _ _ _ Hr)].
    destruct (decode_events _ _ _ Hr) as [?|[? _]]; [by left|by right].
  - induction ps as [|p ps IH]; intros d rs Hne; simpl.
    + intros [= <-]. constructor.
    + destruct (decode d p) as [r|] eqn:Hr; simpl; [|discriminate].
      destruct (decodes ps (dec r)) as [rs'|] eqn:Hrs; simpl; [|discriminate].
      intros [= <-].
      destruct (decode_event_ids _ _ _ Hr) as [He Hd].
      constructor.
      * destruct (decode_events _ _ _ Hr) as [Hev|[Hev _]].
        -- exists []. rewrite app_nil_r. split; [done|]. apply not_elem_of_nil.
        -- exists [EV_DATA_ d]. split; [done|].
           rewrite list_elem_of_singleton. done.
      * specialize (IH (dec r) rs'). rewrite He, Hd in IH. by apply IH.
Qed.

Lemma established_never_pushed_witness :
  ((events (prop (decoded (decoder_after handshake_packets wheel_decoder) data_packet))
    = events data_packet ∨
    events (prop (decoded (decoder_after handshake_packets wheel_decoder) data_packet))
    = events data_packet
      ++ [EV_DATA_ (decoder_after handshake_packets wheel_decoder)]) ∧
   EV_EST_ (dec (decoded (decoder_after handshake_packets wheel_decoder) data_packet))
   = EV_EST_ (decoder_after handshake_packets wheel_decoder) ∧
   EV_DATA_ (dec (decoded (decoder_after handshake_packets wheel_decoder) data_packet))
   = EV_DATA_ (decoder_after handshake_packets wheel_decoder)) ∧
  Forall2 (λ p r, ∃ evs, events (prop r) = events p ++ evs ∧
                         EV_EST_ wheel_decoder ∉ evs)
          (handshake_packets ++ [data_packet])
          (default [] (decodes (handshake_packets ++ [data_packet]) wheel_decoder)).
Proof.
  split.
  - apply (proj1 (proj2 (@established_never_pushed Wheel Wheel_LRUHash))
             (decoder_after handshake_packets wheel_decoder) data_packet).
    vm_compute. reflexivity.
  - apply (proj2 (proj2 (@established_never_pushed Wheel Wheel_LRUHash))
             (handshake_packets ++ [data_packet]) wheel_decoder).
    + vm_compute. discriminate.
    + vm_compute. reflexivity.
Defined.

(** C2, as the code has it. Whenever [decode] pushes an event, it is
    [tcp_ssn.data], the packet has [data_len > 0], the segment is attached,
    and the endpoint that sent the packet is ESTABLISHED and has not changed
    state on this packet; the receiving endpoint may be in another state.
    On the fourth packet of the handshake scenario, (L2R, ACK, 1001, 5001,
    100 bytes), the client is ESTABLISHED, the server stays in SYN_RCVD, and
    the event is pushed with the 100 bytes attached and [to_server = true]. *)
Theorem data_event_sender_established :
  (∀ (T : Type) (H : LRUHash T) (d : TcpSsnDecoder T) p r,
     decode d p = Some r →
     events (prop r) ≠ events p →
     events (prop r) = events p ++ [EV_DATA_ d] ∧
     0 < remain p ∧
     stat (data_sender (dir p) (ssn r)) = ESTABLISHED ∧
     updated (data_sender (dir p) (ssn r)) = false ∧
     (P_SEG_ d, VarBytes (payload (remain p) p)) ∈ vals (prop r)) ∧
  (observed data_packet
     <$> decode (decoder_after handshake_packets wheel_decoder) data_packet
   = Some ([EV_DATA_ wheel_decoder],
           [(P_TO_SERVER_ wheel_decoder, VarBool true);
            (P_SEG_ wheel_decoder, VarBytes (buf data_packet));
            (P_SERVER_STAT_ wheel_decoder, VarStat SYN_RCVD);
            (P_CLIENT_STAT_ wheel_decoder, VarStat ESTABLISHED)],
           ESTABLISHED, SYN_RCVD) ∧
   length (buf data_packet) = 100%nat).
Proof.
  split.
  - intros T H d p r Hr Hne.
    by destruct (decode_events _ _ _ Hr) as [?|?].
  - split; vm_compute; reflexivity.
Qed.

Lemma data_event_sender_established_witness :
  0 < remain data_packet ∧
  stat (data_sender (dir data_packet)
          (ssn (decoded (decoder_after handshake_packets wheel_decoder) data_packet)))
  = ESTABLISHED.
Proof.
  destruct (proj1 data_event_sender_established Wheel Wheel_LRUHash
              (decoder_after handshake_packets wheel_decoder) data_packet
              (decoded (decoder_after handshake_packets wheel_decoder) data_packet))
    as (_ & Hlen & Hst & _).
  - vm_compute. reflexivity.
  - vm_compute. discriminate.
  - split; [exact Hlen|exact Hst].
Defined.

(** C2, as the spec words it, fails: on the fourth packet of the handshake
    scenario the event [tcp_ssn.data] is pushed while the server endpoint is
    in SYN_RCVD; it has not moved to ESTABLISHED on receiving. *)
Lemma data_event_server_syn_rcvd :
  (λ r, (events (prop r), server_stat (ssn r)))
    <$> decode (decoder_after handshake_packets wheel_decoder) data_packet
  = Some ([EV_DATA_ wheel_decoder], SYN_RCVD) ∧
  SYN_RCVD ≠ ESTABLISHED.
Proof. split; [vm_compute; reflexivity|discriminate]. Qed.

Lemma decode_new_session_non_syn {T : Type} `{LRUHash T}
      (d : TcpSsnDecoder T) p r d1 log :
  timeout_session (tv_sec p) d = Some (d1, log) →
  lru_get (hash_value p) (ssn_label p) (Z.of_nat (length (ssn_label p)))
          (ssn_table_ d1) = None →
  masked (tcp_flags d p) ≠ SYN →
  decode d p = Some r →
  ssn r = set_ts (tv_sec p)
            (TcpSession_new (ssn_label p) (Z.of_nat (length (ssn_label p)))
                            (hash_value p)) ∧
  events (prop r) = events p ∧
  vals (prop r) = vals p ++ [(P_SERVER_STAT_ d, VarStat CLOSED);
                             (P_CLIENT_STAT_ d, VarStat CLOSED)].
Proof.
  intros Hto Hget Hf Hr.
  destruct (decode_inv _ _ _ Hr) as (d1' & log' & ok & s1 & Hto' & Hu & ->).
  rewrite Hto in Hto'. injection Hto' as <- <-.
  unfold fetch_session in Hu. rewrite Hget in Hu. cbn [fst] in Hu.
  rewrite update_ignores_non_syn in Hu by done.
  injection Hu as <- <-. cbn [ssn prop]. split; [done|].
  unfold emitted. cbn. by rewrite <- app_assoc.
Qed.

(** C3, as the code has it. A packet whose masked flags are not exactly SYN
    and for which the table holds no session makes [decode] create one, on
    which [update] returns [false] and whose [dir] stays NIL; [decode] then
    pushes no event and writes neither [tcp_ssn.to_server] nor
    [tcp_ssn.segment], but it does write the two state attributes, both
    CLOSED.  So it is for the packet (L2R, ACK, 1001, 5001, 50 bytes) on a
    decoder that has seen nothing. *)
Theorem pre_syn_packet_ignored :
  (∀ (T : Type) (H : LRUHash T) (d : TcpSsnDecoder T) p r d1 log,
     timeout_session (tv_sec p) d = Some (d1, log) →
     lru_get (hash_value p) (ssn_label p) (Z.of_nat (length (ssn_label p)))
             (ssn_table_ d1) = None →
     masked (tcp_flags d p) ≠ SYN →
     decode d p = Some r →
     dir_ (ssn r) = DIR_NIL ∧
     update (tcp_flags d p) (tcp_seq d p) (tcp_ack d p) (remain p) (dir p) (ssn r)
     = Some (false, ssn r) ∧
     events (prop r) = events p ∧
     vals (prop r) = vals p ++ [(P_SERVER_STAT_ d, VarStat CLOSED);
                                (P_CLIENT_STAT_ d, VarStat CLOSED)]) ∧
  (observed pre_syn_packet <$> decode wheel_decoder pre_syn_packet
   = Some ([], [(P_SERVER_STAT_ wheel_decoder, VarStat CLOSED);
                (P_CLIENT_STAT_ wheel_decoder, VarStat CLOSED)],
           CLOSED, CLOSED) ∧
   (λ r, dir_ (ssn r)) <$> decode wheel_decoder pre_syn_packet = Some DIR_NIL ∧
   update ACK 1001 5001 50 DIR_L2R (TcpSession_new flow_a 12 7)
   = Some (false, TcpSession_new flow_a 12 7)).
Proof.
  split.
  - intros T H d p r d1 log Hto Hget Hf Hr.
    destruct (decode_new_session_non_syn _ _ _ _ _ Hto Hget Hf Hr)
      as (Hs & He & Hv).
    assert (Hd : dir_ (ssn r) = DIR_NIL) by by rewrite Hs.
    split; [done|]. split; [|done].
    by apply update_ignores_non_syn.
  - repeat split; vm_compute; reflexivity.
Qed.

Lemma pre_syn_packet_ignored_witness :
  dir_ (ssn (decoded wheel_decoder pre_syn_packet)) = DIR_NIL ∧
  events (prop (decoded wheel_decoder pre_syn_packet)) = events pre_syn_packet.
Proof.
  destruct (proj1 pre_syn_packet_ignored Wheel Wheel_LRUHash
              wheel_decoder pre_syn_packet
              (decoded wheel_decoder pre_syn_packet)
              (set_last_ts 1000 wheel_decoder) (mkTimeoutLog [] []))
    as (Hd & _ & He & _).
  - vm_compute. reflexivity.
  - vm_compute. reflexivity.
  - vm_compute. discriminate.
  - vm_compute. reflexivity.
  - split; [exact Hd|exact He].
Defined.

(** C3, as the spec words it, fails: for the packet (L2R, ACK, 1001, 5001,
    50 bytes) on a decoder that has seen nothing, [decode] does write
    attributes, the two states. *)
Lemma pre_syn_packet_states_written :
  (λ r, drop (length (vals pre_syn_packet)) (vals (prop r)))
    <$> decode wheel_decoder pre_syn_packet
  = Some [(P_SERVER_STAT_ wheel_decoder, VarStat CLOSED);
          (P_CLIENT_STAT_ wheel_decoder, VarStat CLOSED)] ∧
  ¬ ((λ r, vals (prop r)) <$> decode wheel_decoder pre_syn_packet
     = Some (vals pre_syn_packet)).
Proof. split; [vm_compute; reflexivity|vm_compute; discriminate]. Qed.


(** The session of the first flow is gone after the heartbeat, and still
    there when the heartbeat comes one second earlier. *)
Example evicted_after_timeout :
  wheel_get 7 flow_a 12
    (ssn_table_ (decoder_after [first_packet; heartbeat] wheel_decoder)) = None ∧
  client_stat <$> wheel_get 7 flow_a 12
    (ssn_table_ (decoder_after
       [first_packet; tcp_packet flow_b 9 1300 (mkSegment DIR_L2R SYN 7000 0 0) []]
       wheel_decoder)) = Some SYN_SENT.
Proof. split; vm_compute; reflexivity. Qed.

(** * The rest of the state machine *)

(** ** One call on an endpoint *)

(** Case analysis of one call: the state it starts from and the tests it
    makes. *)
Ltac endpoint_cases H n :=
  match type of H with
  | send ?f _ _ _ _ = _ => unfold send in H
  | recv ?f _ _ _ _ = _ => unfold recv in H
  end;
  destruct (negb (flags_asserted _)); [discriminate|];
  cbv zeta in H; injection H as <- <-;
  destruct n as [bs sl na asq aak st rf rfa sfa up]; destruct st; cbn;
  repeat match goal with
         | |- context [if ?c then _ else _] => destruct c eqn:?; cbn
         end.

Lemma send_arrows flags seq ack data_len n b n' :
  send flags seq ack data_len n = Some (b, n') →
  send_arrow (stat_ n) (stat_ n') = true.
Proof. intros H. endpoint_cases H n; reflexivity. Qed.

Lemma recv_arrows flags seq ack data_len n b n' :
  recv flags seq ack data_len n = Some (b, n') →
  recv_arrow (stat_ n) (stat_ n') = true.
Proof. intros H. endpoint_cases H n; reflexivity. Qed.

Lemma send_true flags seq ack data_len n b n' :
  send flags seq ack data_len n = Some (b, n') → b = true.
Proof.
  unfold send. destruct (negb (flags_asserted flags)); [discriminate|].
  by intros [= <- _].
Qed.

Lemma recv_true flags seq ack data_len n b n' :
  recv flags seq ack data_len n = Some (b, n') → b = true.
Proof.
  unfold recv. destruct (negb (flags_asserted flags)); [discriminate|].
  by intros [= <- _].
Qed.

Lemma stat_rank_arrow st st' :
  send_arrow st st' = true ∨ recv_arrow st st' = true →
  stat_rank st ≤ stat_rank st'.
Proof. destruct st, st'; simpl; intros [?|?]; try discriminate; lia. Qed.

Lemma call_rank c n b n' :
  call c n = Some (b, n') → stat_rank (stat_ n) ≤ stat_rank (stat_ n').
Proof.
  destruct c; simpl; intros Hc; apply stat_rank_arrow.
  - left. by eapply send_arrows.
  - right. by eapply recv_arrows.
Qed.

Lemma calls_rank cs : ∀ n n',
  calls cs n = Some n' → stat_rank (stat_ n) ≤ stat_rank (stat_ n').
Proof.
  induction cs as [|c cs IH]; intros n n'; simpl.
  - intros [= <-]. lia.
  - destruct (call c n) as [[b n1]|] eqn:Hc; simpl; [|discriminate].
    intros Hcs. apply call_rank in Hc. apply IH in Hcs. lia.
Qed.

(** ** One call of [update] *)

(** What an accepted call of [update] is made of. *)
Lemma update_inv flags seq ack data_len dir s b s' :
  update flags seq ack data_len dir s = Some (b, s') →
  (b = false ∧ s' = s) ∨
  (b = true ∧ ∃ sd c v,
     send (masked flags) seq ack data_len (node_of sd s) = Some (true, c) ∧
     recv (masked flags) seq ack data_len (node_of (peer sd) s) = Some (true, v) ∧
     node_of sd s' = c ∧ node_of (peer sd) s' = v ∧
     key_ s' = key_ s ∧ len_ s' = len_ s ∧ hash_ s' = hash_ s ∧ ts_ s' = ts_ s ∧
     ((dir_ s = DIR_NIL ∧ masked flags = SYN ∧ sd = Client ∧ dir_ s' = dir) ∨
      (dir_ s ≠ DIR_NIL ∧ dir_ s' = dir_ s ∧
       check_seq seq ack (node_of sd s) = true ∧
       sd = if to_server dir s then Client else Server))).
Proof.
  unfold update. fold (masked flags).
  destruct (FlowDir_eqb (dir_ s) DIR_NIL) eqn:Hnil.
  - assert (Hd : dir_ s = DIR_NIL) by (by destruct (dir_ s)).
    destruct (Z.eqb_spec (masked flags) SYN) as [Hsyn|Hsyn];
      [|intros [= <- <-]; by left].
    cbn [client_ set_dir].
    destruct (send _ _ _ _ (client_ s)) as [[b1 c]|] eqn:Hs; simpl; [|discriminate].
    destruct (recv _ _ _ _ (server_ s)) as [[b2 v]|] eqn:Hr; simpl; [|discriminate].
    intros [= <- <-]. right. split; [done|]. exists Client, c, v.
    rewrite (send_true _ _ _ _ _ _ _ Hs) in Hs.
    rewrite (recv_true _ _ _ _ _ _ _ Hr) in Hr.
    simpl. repeat split; try done. by left.
  - assert (Hd : dir_ s ≠ DIR_NIL) by (destruct (dir_ s); simpl in Hnil; congruence).
    pose proof (to_server_or_client dir s Hd) as Hts.
    destruct (to_server dir s) eqn:Hsrv; simpl.
    + destruct (check_seq seq ack (client_ s)) eqn:Hc; [|intros [= <- <-]; by left].
      destruct (send _ _ _ _ (client_ s)) as [[b1 c]|] eqn:Hs; simpl; [|discriminate].
      destruct (recv _ _ _ _ (server_ s)) as [[b2 v]|] eqn:Hr; simpl; [|discriminate].
      intros [= <- <-]. right. split; [done|]. exists Client, c, v.
      rewrite (send_true _ _ _ _ _ _ _ Hs) in Hs.
      rewrite (recv_true _ _ _ _ _ _ _ Hr) in Hr.
      simpl. repeat split; try done. right. by repeat split.
    + destruct (to_client dir s); [|discriminate]. simpl.
      destruct (check_seq seq ack (server_ s)) eqn:Hc; [|intros [= <- <-]; by left].
      destruct (send _ _ _ _ (server_ s)) as [[b1 c]|] eqn:Hs; simpl; [|discriminate].
      destruct (recv _ _ _ _ (client_ s)) as [[b2 v]|] eqn:Hr; simpl; [|discriminate].
      intros [= <- <-]. right. split; [done|]. exists Server, c, v.
      rewrite (send_true _ _ _ _ _ _ _ Hs) in Hs.
      rewrite (recv_true _ _ _ _ _ _ _ Hr) in Hr.
      simpl. repeat split; try done. right. by repeat split.
Qed.

Lemma update_rank flags seq ack data_len dir s b s' :
  update flags seq ack data_len dir s = Some (b, s') →
  stat_rank (client_stat s) ≤ stat_rank (client_stat s') ∧
  stat_rank (server_stat s) ≤ stat_rank (server_stat s').
Proof.
  intros Hu. unfold client_stat, server_stat, stat.
  destruct (update_inv _ _ _ _ _ _ _ _ Hu)
    as [[_ ->]|(_ & sd & c & v & Hs & Hr & Hc & Hv & _)]; [lia|].
  apply send_arrows in Hs. apply recv_arrows in Hr.
  destruct sd; simpl in *; subst c v;
    split; apply stat_rank_arrow; auto.
Qed.

Lemma updates_rank gs : ∀ s r,
  updates gs s = Some r →
  stat_rank (client_stat s) ≤ stat_rank (client_stat r.2) ∧
  stat_rank (server_stat s) ≤ stat_rank (server_stat r.2).
Proof.
  induction gs as [|g gs IH]; intros s r; simpl.
  - intros [= <-]. simpl. lia.
  - destruct (update_seg g s) as [[b s1]|] eqn:Hu; simpl; [|discriminate].
    destruct (updates gs s1) as [r1|] eqn:Hr; simpl; [|discriminate].
    intros [= <-]. simpl. apply update_rank in Hu. apply IH in Hr. lia.
Qed.

(** X1. No call takes an endpoint back: over any sequence of [send] and
    [recv] on one endpoint, and for both endpoints over any sequence of
    [update] on a session, the state only moves forward in the order of the
    [enum]: nothing returns to CLOSED, and nothing leaves TIME_WAIT. *)
Theorem state_never_goes_back :
  (∀ cs n n',
     calls cs n = Some n' → stat_rank (stat_ n) ≤ stat_rank (stat_ n')) ∧
  (∀ gs s bs s',
     updates gs s = Some (bs, s') →
     stat_rank (client_stat s) ≤ stat_rank (client_stat s') ∧
     stat_rank (server_stat s) ≤ stat_rank (server_stat s')).
Proof.
  split; [exact calls_rank|].
  intros gs s bs s' Hu. exact (updates_rank _ _ _ Hu).
Qed.

Lemma state_never_goes_back_witness :
  stat_rank (stat_ (set_stat TIME_WAIT Node_new))
  ≤ stat_rank (stat_ (set_updated false (set_stat TIME_WAIT Node_new))) ∧
  stat_rank (client_stat (TcpSession_new [] 0 0))
  ≤ stat_rank (client_stat established).
Proof.
  split.
  - apply (proj1 state_never_goes_back
             [CallSend RST 1 2 3; CallRecv (Z.lor FIN ACK) 4 5 6]
             (set_stat TIME_WAIT Node_new)).
    vm_compute. reflexivity.
  - apply (proj2 state_never_goes_back (handshake ++ [first_data])
             (TcpSession_new [] 0 0) [true; true; true; true] established).
    vm_compute. reflexivity.
Defined.

(** X2. After [send] or [recv], [updated] tells whether the call changed
    the state of the endpoint. *)
Theorem updated_iff_state_changed :
  (∀ flags seq ack data_len n b n',
     send flags seq ack data_len n = Some (b, n') →
     (updated n' = true ↔ stat n' ≠ stat n)) ∧
  (∀ flags seq ack data_len n b n',
     recv flags seq ack data_len n = Some (b, n') →
     (updated n' = true ↔ stat n' ≠ stat n)).
Proof.
  split; intros flags seq ack data_len n b n' H; unfold updated, stat;
    endpoint_cases H n; split; congruence.
Qed.

Lemma updated_iff_state_changed_witness :
  (updated (client_ (session_after handshake)) = true ↔
   stat (client_ (session_after handshake))
   ≠ stat (client_ (session_after (take 2 handshake)))) ∧
  (updated (server_ established) = true ↔
   stat (server_ established) ≠ stat (server_ (session_after handshake))).
Proof.
  split.
  - apply (proj1 updated_iff_state_changed ACK 1001 5001 0
             (client_ (session_after (take 2 handshake))) true).
    vm_compute. reflexivity.
  - apply (proj2 updated_iff_state_changed ACK 1001 5001 100
             (server_ (session_after handshake)) true).
    vm_compute. reflexivity.
Defined.

(** ** What holds of every endpoint *)

Lemma node_inv_new : node_inv Node_new.
Proof. split; simpl; try discriminate; try lia; intuition (discriminate || lia). Qed.

Lemma call_node_inv c n b n' :
  call c n = Some (b, n') → node_inv n → node_inv n'.
Proof.
  destruct c as [f q a l|f q a l]; simpl; intros H Hinv; revert Hinv;
    endpoint_cases H n; intros [[I1 I1'] I2 I3 I4 I5 I6 I7]; cbn in *;
    repeat match goal with
           | E : _ && _ = true |- _ => apply andb_prop in E as [? ?]
           | I : ?P → _ |- _ =>
               let HP := fresh in
               assert (HP : P) by (lia || reflexivity || auto);
               specialize (I HP); clear HP
           end; subst;
    split; cbn;
    intuition (try discriminate; try lia; try congruence).
Qed.

Lemma calls_node_inv cs : ∀ n n',
  calls cs n = Some n' → node_inv n → node_inv n'.
Proof.
  induction cs as [|c cs IH]; intros n n'; simpl.
  - by intros [= <-].
  - destruct (call c n) as [[b n1]|] eqn:Hc; simpl; [|discriminate].
    intros Hcs Hinv. eapply IH; [done|]. by eapply call_node_inv.
Qed.

Lemma call_base_seq c n b n' :
  call c n = Some (b, n') → 2 ≤ stat_rank (stat_ n) →
  base_seq_ n' = base_seq_ n ∧ avail_seq_ n' = avail_seq_ n.
Proof.
  destruct c as [f q a l|f q a l]; simpl; intros H Hr; revert Hr;
    endpoint_cases H n; intros; (lia || done).
Qed.

(** X3. Once an endpoint has left CLOSED and LISTEN its first sequence
    number is known, and the other way round; from then on no call changes
    [base_seq] or takes [avail_seq] away. *)
Theorem base_seq_fixed_once_set cs1 cs2 n n' :
  calls cs1 Node_new = Some n →
  calls cs2 n = Some n' →
  (avail_seq_ n = true ↔ stat n ≠ CLOSED ∧ stat n ≠ LISTEN) ∧
  (avail_seq_ n = true →
   avail_seq_ n' = true ∧ base_seq_ n' = base_seq_ n).
Proof.
  intros H1 H2. apply calls_node_inv in H1; [|exact node_inv_new].
  split.
  - rewrite (inv_avail_seq _ H1). unfold stat.
    destruct (stat_ n); simpl; intuition (try discriminate; try lia).
  - clear cs1. revert n n' H1 H2.
    induction cs2 as [|c cs2 IH]; intros n n' Hinv; simpl.
    + by intros [= <-].
    + destruct (call c n) as [[b n1]|] eqn:Hc; simpl; [|discriminate].
      intros Hcs Ha.
      destruct (call_base_seq _ _ _ _ Hc) as [Hb Hs];
        [by apply (inv_avail_seq _ Hinv)|].
      destruct (IH n1 n') as [Ha' Hb'];
        [by eapply call_node_inv|done|congruence|].
      split; congruence.
Qed.

Lemma base_seq_fixed_once_set_witness :
  (avail_seq_ (client_ (session_after (take 1 handshake))) = true ↔
   stat (client_ (session_after (take 1 handshake))) ≠ CLOSED ∧
   stat (client_ (session_after (take 1 handshake))) ≠ LISTEN) ∧
  (avail_seq_ (client_ (session_after (take 1 handshake))) = true →
   avail_seq_ (client_ established) = true ∧
   base_seq_ (client_ established)
   = base_seq_ (client_ (session_after (take 1 handshake)))).
Proof.
  apply (base_seq_fixed_once_set
           [CallSend SYN 1000 0 0]
           [CallRecv (Z.lor SYN ACK) 5000 1001 0; CallSend ACK 1001 5001 0;
            CallSend ACK 1001 5001 100]).
  - vm_compute. reflexivity.
  - vm_compute. reflexivity.
Defined.



(** X5. An endpoint is in TIME_WAIT only after it has received a FIN,
    received an ACK while closing, and sent an ACK after the FIN it
    received; and the mark for the ACK it sent is never set without the
    FIN. *)
Theorem time_wait_needs_both_closes cs n :
  calls cs Node_new = Some n →
  (stat n = TIME_WAIT →
   recv_fin_ n = true ∧ recv_finack_ n = true ∧ sent_finack_ n = true) ∧
  (sent_finack_ n = true → recv_fin_ n = true) ∧
  (recv_fin_ n = true → stat_rank ESTABLISHED ≤ stat_rank (stat n)).
Proof.
  intros Hc. apply calls_node_inv in Hc; [|exact node_inv_new].
  split; [exact (inv_time_wait _ Hc)|].
  split; [exact (inv_sent_finack _ Hc)|exact (inv_recv_fin _ Hc)].
Qed.

Lemma time_wait_needs_both_closes_witness :
  stat (node_after server_closes) = TIME_WAIT ∧
  recv_fin_ (node_after server_closes) = true ∧
  recv_finack_ (node_after server_closes) = true ∧
  sent_finack_ (node_after server_closes) = true.
Proof.
  split; [vm_compute; reflexivity|].
  refine (proj1 (time_wait_needs_both_closes server_closes
                   (node_after server_closes) _) _).
  - vm_compute. reflexivity.
  - vm_compute. reflexivity.
Defined.

(** ** What holds of every session *)

Lemma updates_cons_inv g gs s r :
  updates (g :: gs) s = Some r →
  ∃ b s1 r1, update_seg g s = Some (b, s1) ∧ updates gs s1 = Some r1 ∧
             r = (b :: r1.1, r1.2).
Proof.
  simpl.
  destruct (update_seg g s) as [[b s1]|] eqn:Hu; simpl; [|discriminate].
  destruct (updates gs s1) as [r1|] eqn:Hr; simpl; [|discriminate].
  intros [= <-]. by exists b, s1, r1.
Qed.

(** X6. Once the direction of a session is set, no call of [update]
    changes it. *)
Theorem dir_fixed_once_set gs s bs s' :
  updates gs s = Some (bs, s') → dir_ s ≠ DIR_NIL → dir_ s' = dir_ s.
Proof.
  revert s bs s'. induction gs as [|g gs IH]; intros s bs s'.
  - by intros [= <- <-].
  - intros Hu Hd.
    apply updates_cons_inv in Hu as (b & s1 & [bs1 s2] & Hu & Hr & [= -> ->]).
    apply update_dir in Hu.
    assert (Hs1 : dir_ s1 = dir_ s).
    { rewrite Hu. by destruct (dir_ s). }
    rewrite (IH _ _ _ Hr); congruence.
Qed.

Lemma dir_fixed_once_set_witness :
  dir_ (session_after
          (handshake ++ [mkSegment DIR_R2L SYN 9000 0 0; first_data]))
  = dir_ (session_after handshake).
Proof.
  apply (dir_fixed_once_set [mkSegment DIR_R2L SYN 9000 0 0; first_data]
           (session_after handshake) [true; true]).
  - vm_compute. reflexivity.
  - vm_compute. discriminate.
Defined.

(** X7. [update] never touches the identity of a session: its key, length,
    hash and timestamp stay as they were over any sequence of calls, so the
    session goes on matching the label it was made for. *)
Theorem updates_keep_identity gs s bs s' :
  updates gs s = Some (bs, s') →
  key_ s' = key_ s ∧ len_ s' = len_ s ∧ hash s' = hash s ∧ ts s' = ts s ∧
  ∀ key len, ssn_match key len s' = ssn_match key len s.
Proof.
  revert s bs s'. induction gs as [|g gs IH]; intros s bs s'.
  - by intros [= <- <-].
  - intros Hu.
    apply updates_cons_inv in Hu as (b & s1 & [bs1 s2] & Hu & Hr & [= -> ->]).
    destruct (IH _ _ _ Hr) as (Hk & Hl & Hh & Ht & Hm).
    assert (key_ s1 = key_ s ∧ len_ s1 = len_ s ∧ hash_ s1 = hash_ s ∧
            ts_ s1 = ts_ s) as (Hk1 & Hl1 & Hh1 & Ht1).
    { destruct (update_inv _ _ _ _ _ _ _ _ Hu)
        as [[_ ->]|(_ & sd & c & v & _ & _ & _ & _ & ? & ? & ? & ? & _)]; done. }
    unfold hash, ts, ssn_match in *.
    repeat split; try congruence.
    intros key len. by rewrite Hk, Hl, Hk1, Hl1.
Qed.

Lemma updates_keep_identity_witness :
  key_ (session_after handshake) = key_ (TcpSession_new [] 0 0) ∧
  len_ (session_after handshake) = len_ (TcpSession_new [] 0 0) ∧
  hash (session_after handshake) = hash (TcpSession_new [] 0 0) ∧
  ts (session_after handshake) = ts (TcpSession_new [] 0 0).
Proof.
  destruct (updates_keep_identity handshake (TcpSession_new [] 0 0)
              [true; true; true] (session_after handshake))
    as (Hk & Hl & Hh & Ht & _).
  - vm_compute. reflexivity.
  - split; [exact Hk|]. split; [exact Hl|]. split; [exact Hh|exact Ht].
Defined.

Lemma send_syn_stat flags seq ack data_len n b n' :
  send flags seq ack data_len n = Some (b, n') →
  flags = SYN → stat_ n = CLOSED ∨ stat_ n = SYN_SENT →
  stat_ n' = SYN_SENT.
Proof.
  intros H Hf Hst. revert Hf Hst.
  endpoint_cases H n; intros -> [?|?]; try discriminate; try reflexivity;
    match goal with E : (SYN =? _) = _ |- _ => vm_compute in E; discriminate end.
Qed.

Lemma recv_syn_stat flags seq ack data_len n b n' :
  recv flags seq ack data_len n = Some (b, n') →
  flags = SYN → stat_ n = CLOSED ∨ stat_ n = LISTEN →
  stat_ n' = LISTEN.
Proof.
  intros H Hf Hst. revert Hf Hst.
  endpoint_cases H n; intros -> [?|?]; try discriminate; try reflexivity;
    match goal with E : (SYN =? _) = _ |- _ => vm_compute in E; discriminate end.
Qed.

Lemma ssn_inv_new key key_len h : ssn_inv (TcpSession_new key key_len h).
Proof. split; cbn; intuition (discriminate || lia). Qed.

Lemma update_ssn_inv flags seq ack data_len dir s b s' :
  update flags seq ack data_len dir s = Some (b, s') →
  ssn_inv s → ssn_inv s'.
Proof.
  intros Hu Hinv.
  destruct (update_inv _ _ _ _ _ _ _ _ Hu)
    as [[_ ->]|(_ & sd & c & v & Hs & Hr & Hc & Hv & _ & _ & _ & _ & Hbr)];
    [done|].
  destruct Hinv as [[Ic1 Ic2] Is [Icl Icl'] Idn Ids].
  unfold client_stat, server_stat, stat in *.
  destruct Hbr as [(Hd & Hsyn & -> & Hd')|(Hd & Hd' & _ & _)].
  - destruct (Idn Hd) as [Hc2 Hs1]. simpl in *.
    assert (Hcs : stat_ (client_ s') = SYN_SENT).
    { rewrite Hc. eapply send_syn_stat; [exact Hs|exact Hsyn|].
      destruct (stat_ (client_ s)); simpl in *; auto; (congruence || lia). }
    assert (Hss : stat_ (server_ s') = LISTEN).
    { rewrite Hv. eapply recv_syn_stat; [exact Hr|exact Hsyn|].
      destruct (stat_ (server_ s)); simpl in *; auto; lia. }
    split; unfold client_stat, server_stat, stat; rewrite ?Hcs, ?Hss, ?Hd'; simpl;
      intuition (discriminate || lia).
  - specialize (Ids Hd).
    assert (Hsv : stat_ (server_ s) ≠ CLOSED) by tauto.
    apply send_arrows in Hs. apply recv_arrows in Hr.
    split; unfold client_stat, server_stat, stat; rewrite ?Hd';
      destruct sd; simpl in *; subst c v;
      destruct (stat_ (client_ s)), (stat_ (server_ s)); try congruence;
      destruct (stat_ (client_ s')), (stat_ (server_ s')); try discriminate;
      intuition (try discriminate; try congruence; try lia).
Qed.

Lemma updates_ssn_inv gs : ∀ s bs s',
  updates gs s = Some (bs, s') → ssn_inv s → ssn_inv s'.
Proof.
  induction gs as [|g gs IH]; intros s bs s'.
  - by intros [= <- <-].
  - intros Hu Hinv.
    apply updates_cons_inv in Hu as (b & s1 & [bs1 s2] & Hu & Hr & [= -> ->]).
    eapply IH; [exact Hr|]. by eapply update_ssn_inv.
Qed.

(** X8. However a session is driven from its constructor, its endpoints
    keep their roles: the client is never in LISTEN or SYN_RCVD, the server
    never in SYN_SENT, and one has left CLOSED iff the other has.  As long
    as the direction is not set, the client is at most in SYN_SENT and the
    server at most in LISTEN, so no data is available in either direction. *)
Theorem endpoint_roles key key_len h gs bs s :
  updates gs (TcpSession_new key key_len h) = Some (bs, s) →
  client_stat s ≠ LISTEN ∧ client_stat s ≠ SYN_RCVD ∧
  server_stat s ≠ SYN_SENT ∧
  (client_stat s = CLOSED ↔ server_stat s = CLOSED) ∧
  (dir_ s = DIR_NIL →
   stat_rank (client_stat s) ≤ stat_rank SYN_SENT ∧
   stat_rank (server_stat s) ≤ stat_rank LISTEN ∧
   ∀ d, is_data_available d s = false).
Proof.
  intros Hu. apply updates_ssn_inv in Hu; [|apply ssn_inv_new].
  destruct Hu as [[Ic1 Ic2] Is Icl Idn Ids].
  split; [done|]. split; [done|]. split; [done|]. split; [done|].
  intros Hnil. destruct (Idn Hnil) as [Hc Hs].
  split; [done|]. split; [done|].
  intros d.
  unfold is_data_available, client_stat, server_stat, updated, stat in *.
  destruct (FlowDir_eqb (dir_ s) d).
  - destruct (stat_ (client_ s)); simpl in *;
      try lia; by rewrite andb_false_r.
  - destruct (stat_ (server_ s)); simpl in *;
      try lia; by rewrite andb_false_r.
Qed.

Lemma endpoint_roles_witness :
  client_stat (session_after [mkSegment DIR_NIL SYN 1000 0 0]) ≠ LISTEN ∧
  ∀ d, is_data_available d (session_after [mkSegment DIR_NIL SYN 1000 0 0])
       = false.
Proof.
  destruct (endpoint_roles [] 0 0 [mkSegment DIR_NIL SYN 1000 0 0] [true]
              (session_after [mkSegment DIR_NIL SYN 1000 0 0]))
    as (Hc & _ & _ & _ & Hd).
  - vm_compute. reflexivity.
  - split; [exact Hc|]. apply Hd. vm_compute. reflexivity.
Defined.

(** ** Running [update] forward *)

Lemma update_first flags seq ack data_len dir s c v :
  dir_ s = DIR_NIL → masked flags = SYN →
  send SYN seq ack data_len (client_ s) = Some (true, c) →
  recv SYN seq ack data_len (server_ s) = Some (true, v) →
  update flags seq ack data_len dir s
  = Some (true, set_server v (set_client c (set_dir dir s))).
Proof.
  intros Hd Hf Hs Hr. unfold update. fold (masked flags).
  rewrite Hd, Hf. cbn [FlowDir_eqb client_ set_dir].
  change (SYN =? SYN) with true. cbv iota.
  rewrite Hs. cbn [mbind option_bind snd server_ set_client set_dir].
  rewrite Hr. reflexivity.
Qed.

Lemma update_to_server flags seq ack data_len dir s c v :
  dir_ s = dir → dir ≠ DIR_NIL →
  check_seq seq ack (client_ s) = true →
  send (masked flags) seq ack data_len (client_ s) = Some (true, c) →
  recv (masked flags) seq ack data_len (server_ s) = Some (true, v) →
  update flags seq ack data_len dir s
  = Some (true, set_server v (set_client c s)).
Proof.
  intros Hd Hn Hc Hs Hr. unfold update, to_server. fold (masked flags).
  rewrite Hd. destruct dir; [done|..]; cbn [FlowDir_eqb negb andb];
    cbn [mbind option_bind node_of set_node]; rewrite Hc, Hs;
    cbn [mbind option_bind snd server_ set_client]; rewrite Hr; reflexivity.
Qed.

Lemma update_to_client flags seq ack data_len dir s c v :
  dir_ s ≠ DIR_NIL → dir ≠ dir_ s →
  check_seq seq ack (server_ s) = true →
  send (masked flags) seq ack data_len (server_ s) = Some (true, c) →
  recv (masked flags) seq ack data_len (client_ s) = Some (true, v) →
  update flags seq ack data_len dir s
  = Some (true, set_client v (set_server c s)).
Proof.
  intros Hd Hn Hc Hs Hr. unfold update, to_server, to_client.
  fold (masked flags).
  destruct (dir_ s) eqn:Hds, dir; try done; cbn [FlowDir_eqb negb andb];
    cbn [mbind option_bind node_of set_node]; rewrite Hc, Hs;
    cbn [mbind option_bind snd client_ set_server]; rewrite Hr; reflexivity.
Qed.

(** The steps of the handshake on the endpoints. *)
Lemma send_syn_closed seq ack data_len n :
  stat_ n = CLOSED →
  send SYN seq ack data_len n
  = Some (true, set_avail_seq true
                  (set_base_seq seq (update_stat SYN_SENT (set_updated false n)))).
Proof.
  intros Hst. unfold send. change (negb (flags_asserted SYN)) with false.
  cbv zeta iota. change (stat_ (set_updated false n)) with (stat_ n).
  rewrite Hst. change (SYN =? SYN) with true. reflexivity.
Qed.

Lemma recv_syn_closed seq ack data_len n :
  stat_ n = CLOSED →
  recv SYN seq ack data_len n
  = Some (true, set_avail_ack true
                  (set_next_ack (u32 (seq + 1))
                     (update_stat LISTEN (set_updated false n)))).
Proof.
  intros Hst. unfold recv. change (negb (flags_asserted SYN)) with false.
  cbv zeta iota. change (stat_ (set_updated false n)) with (stat_ n).
  rewrite Hst. change (SYN =? SYN) with true. reflexivity.
Qed.

Lemma send_synack_listen seq ack data_len n :
  stat_ n = LISTEN →
  send (Z.lor SYN ACK) seq ack data_len n
  = Some (true, set_avail_seq true
                  (set_base_seq seq (update_stat SYN_RCVD (set_updated false n)))).
Proof.
  intros Hst. unfold send.
  change (negb (flags_asserted (Z.lor SYN ACK))) with false.
  cbv zeta iota. change (stat_ (set_updated false n)) with (stat_ n).
  rewrite Hst. change (Z.lor SYN ACK =? Z.lor SYN ACK) with true. reflexivity.
Qed.

Lemma recv_synack_syn_sent seq ack data_len n :
  stat_ n = SYN_SENT →
  recv (Z.lor SYN ACK) seq ack data_len n
  = Some (true, set_avail_ack true
                  (set_next_ack (u32 (seq + 1)) (set_updated false n))).
Proof.
  intros Hst. unfold recv.
  change (negb (flags_asserted (Z.lor SYN ACK))) with false.
  cbv zeta iota. change (stat_ (set_updated false n)) with (stat_ n).
  rewrite Hst. change (Z.lor SYN ACK =? Z.lor SYN ACK) with true.
  cbn [stat_ set_avail_ack set_next_ack set_updated]. rewrite Hst. reflexivity.
Qed.

Lemma send_ack_syn_sent seq ack data_len n :
  stat_ n = SYN_SENT →
  send ACK seq ack data_len n
  = Some (true, set_sent_len (u32 (sent_len_ n + data_len))
                  (update_stat ESTABLISHED (set_updated false n))).
Proof.
  intros Hst. unfold send. change (negb (flags_asserted ACK)) with false.
  cbv zeta iota. change (stat_ (set_updated false n)) with (stat_ n).
  rewrite Hst. change (ACK =? ACK) with true. reflexivity.
Qed.

Lemma recv_syn_rcvd flags seq ack data_len n :
  flags_asserted flags = true → stat_ n = SYN_RCVD →
  recv flags seq ack data_len n
  = Some (true, set_next_ack (u32 (next_ack_ n + data_len)) (set_updated false n)).
Proof.
  intros Hf Hst. unfold recv. rewrite Hf. cbv zeta iota. cbn [negb].
  change (stat_ (set_updated false n)) with (stat_ n).
  rewrite Hst. cbn [stat_ set_updated]. rewrite Hst. reflexivity.
Qed.

Lemma updates_step g gs s b s1 bs s' :
  update_seg g s = Some (b, s1) → updates gs s1 = Some (bs, s') →
  updates (g :: gs) s = Some (b :: bs, s').
Proof. intros H1 H2. simpl. rewrite H1. simpl. by rewrite H2. Qed.

(** X9. The three-way handshake establishes, whatever the two initial
    sequence numbers, the acknowledgement numbers and the payload lengths,
    provided neither initial sequence number is [2^32 - 1]: the three
    segments are accepted, the client is ESTABLISHED, the server SYN_RCVD,
    the direction is that of the SYN, only the payload of the third segment
    is counted, and no data is available on it. *)
Theorem three_way_handshake d d' c sq q a1 a2 a3 l1 l2 l3 key key_len h :
  d ≠ DIR_NIL → d' ≠ d →
  u32 (c + 1) ≠ 0 → u32 (sq + 1) ≠ 0 → u32 (c + 1) ≤ q →
  ∃ s,
    updates [mkSegment d SYN c a1 l1; mkSegment d' (Z.lor SYN ACK) sq a2 l2;
             mkSegment d ACK q a3 l3] (TcpSession_new key key_len h)
    = Some ([true; true; true], s) ∧
    client_stat s = ESTABLISHED ∧ server_stat s = SYN_RCVD ∧ dir_ s = d ∧
    base_seq_ (client_ s) = c ∧ base_seq_ (server_ s) = sq ∧
    sent_len_ (client_ s) = u32 l3 ∧ sent_len_ (server_ s) = 0 ∧
    is_data_available d s = false.
Proof.
  intros Hd Hd' Hc Hs Hq.
  eexists. split.
  - eapply updates_step.
    { eapply update_first;
        [reflexivity|reflexivity|by apply send_syn_closed
        |by apply recv_syn_closed]. }
    eapply updates_step.
    { eapply update_to_client;
        [exact Hd|exact Hd'| |by apply send_synack_listen
        |by apply recv_synack_syn_sent].
      apply check_seq_spec. split; [by left|by right]. }
    eapply updates_step; [|reflexivity].
    eapply update_to_server;
      [reflexivity|exact Hd| |by apply send_ack_syn_sent|by apply recv_syn_rcvd].
    apply check_seq_spec. split; [right|by right].
    cbn [client_ set_client set_server set_dir base_seq_ sent_len_
         set_avail_ack set_next_ack set_updated set_avail_seq set_base_seq
         update_stat set_stat TcpSession_new Node_new].
    by rewrite Z.add_0_r.
  - unfold client_stat, server_stat, stat, is_data_available, updated.
    cbn [client_ server_ dir_ set_client set_server set_dir stat_ base_seq_
         sent_len_ updated_ set_sent_len set_avail_ack set_next_ack set_updated
         set_avail_seq set_base_seq update_stat set_stat TcpSession_new Node_new].
    repeat split. by destruct d.
Qed.

Lemma three_way_handshake_witness :
  ∃ s,
    updates [mkSegment DIR_R2L SYN 4294967200 0 0;
             mkSegment DIR_L2R (Z.lor SYN ACK) 77 4294967201 0;
             mkSegment DIR_R2L ACK 4294967201 78 1460]
            (TcpSession_new flow_a 12 7)
    = Some ([true; true; true], s) ∧
    client_stat s = ESTABLISHED ∧ server_stat s = SYN_RCVD ∧ dir_ s = DIR_R2L ∧
    base_seq_ (client_ s) = 4294967200 ∧ base_seq_ (server_ s) = 77 ∧
    sent_len_ (client_ s) = u32 1460 ∧ sent_len_ (server_ s) = 0 ∧
    is_data_available DIR_R2L s = false.
Proof.
  apply (three_way_handshake DIR_R2L DIR_L2R 4294967200 77 4294967201
           0 4294967201 78 0 0 1460 flow_a 12 7).
  - discriminate.
  - discriminate.
  - vm_compute. discriminate.
  - vm_compute. discriminate.
  - vm_compute. discriminate.
Defined.

(** ** Accepted segments *)

Lemma update_accepted flags seq ack data_len dir s s' :
  update flags seq ack data_len dir s = Some (true, s') →
  dir_ s ≠ DIR_NIL →
  dir_ s' = dir_ s ∧
  check_seq seq ack (sender_of dir s) = true ∧
  send (masked flags) seq ack data_len (sender_of dir s)
  = Some (true, sender_of dir s').
Proof.
  intros Hu Hd.
  destruct (update_inv _ _ _ _ _ _ _ _ Hu)
    as [[? _]|(_ & sd & c & v & Hs & Hr & Hc & Hv & _ & _ & _ & _ & Hbr)];
    [discriminate|].
  destruct Hbr as [(Hnil & _)|(_ & Hd' & Hck & Hsd)]; [done|].
  assert (Hts : to_server dir s' = to_server dir s)
    by (unfold to_server; by rewrite Hd').
  unfold sender_of. rewrite Hts.
  destruct (to_server dir s); subst sd; simpl in *; by subst c.
Qed.

Lemma is_data_available_sender dir s :
  dir_ s ≠ DIR_NIL →
  is_data_available dir s
  = negb (updated_ (sender_of dir s))
    && TcpStat_eqb (stat_ (sender_of dir s)) ESTABLISHED.
Proof.
  intros Hd. unfold is_data_available, sender_of, to_server, updated, stat.
  destruct (dir_ s), dir; try done; simpl;
    match goal with |- context [if ?c then true else false] => by destruct c end.
Qed.

Lemma send_established flags seq ack data_len n b n' :
  send flags seq ack data_len n = Some (b, n') →
  stat_ n' = ESTABLISHED →
  base_seq_ n' = base_seq_ n ∧ avail_seq_ n' = avail_seq_ n ∧
  sent_len_ n' = u32 (sent_len_ n + data_len).
Proof.
  intros H. endpoint_cases H n; intros; (discriminate || done).
Qed.



Lemma send_changed_updated flags seq ack data_len n b n' :
  send flags seq ack data_len n = Some (b, n') →
  stat_ n' ≠ stat_ n → updated_ n' = true.
Proof. intros H. endpoint_cases H n; intros; congruence. Qed.

(** X11. The segment on which the sender changes state yields no data: when
    an accepted segment takes its sender to ESTABLISHED, as the last segment
    of the handshake does, its payload is added to [sent_len] but
    [is_data_available] is false for it. *)
Theorem transition_payload_not_available flags seq ack data_len dir s s' :
  update flags seq ack data_len dir s = Some (true, s') →
  dir_ s ≠ DIR_NIL →
  stat (sender_of dir s') ≠ stat (sender_of dir s) →
  is_data_available dir s' = false ∧
  (stat (sender_of dir s') = ESTABLISHED →
   sent_len_ (sender_of dir s')
   = u32 (sent_len_ (sender_of dir s) + data_len)).
Proof.
  intros Hu Hd Hch.
  destruct (update_accepted _ _ _ _ _ _ _ Hu Hd) as (Hd' & _ & Hs).
  split.
  - rewrite is_data_available_sender by congruence.
    by rewrite (send_changed_updated _ _ _ _ _ _ _ Hs Hch).
  - intros Hst. by destruct (send_established _ _ _ _ _ _ _ Hs Hst) as (_ & _ & ?).
Qed.

Lemma transition_payload_not_available_witness :
  is_data_available DIR_L2R
    (session_after (take 2 handshake ++ [mkSegment DIR_L2R ACK 1001 5001 100]))
  = false ∧
  sent_len_ (sender_of DIR_L2R
    (session_after (take 2 handshake ++ [mkSegment DIR_L2R ACK 1001 5001 100])))
  = u32 (sent_len_ (sender_of DIR_L2R (session_after (take 2 handshake))) + 100).
Proof.
  destruct (transition_payload_not_available ACK 1001 5001 100 DIR_L2R
              (session_after (take 2 handshake))
              (session_after
                 (take 2 handshake ++ [mkSegment DIR_L2R ACK 1001 5001 100])))
    as [Hda Hsl].
  - vm_compute. reflexivity.
  - vm_compute. discriminate.
  - vm_compute. discriminate.
  - split; [exact Hda|]. apply Hsl. vm_compute. reflexivity.
Defined.




(** ** The zero test on [next_ack] *)

Lemma recv_listen flags seq ack data_len n b n' :
  recv flags seq ack data_len n = Some (b, n') →
  stat_ n = LISTEN →
  stat_ n' = LISTEN ∧ avail_ack_ n' = avail_ack_ n ∧ next_ack_ n' = next_ack_ n.
Proof. intros H. endpoint_cases H n; intros; (discriminate || done). Qed.

Lemma update_blocked d flags seq ack data_len dir s b s' :
  dir_ s = d → d ≠ DIR_NIL →
  stat_ (server_ s) = LISTEN → avail_ack_ (server_ s) = true →
  next_ack_ (server_ s) = 0 →
  update flags seq ack data_len dir s = Some (b, s') →
  (dir_ s' = d ∧ stat_ (server_ s') = LISTEN ∧ avail_ack_ (server_ s') = true ∧
   next_ack_ (server_ s') = 0) ∧
  (dir ≠ d → b = false).
Proof.
  intros Hd Hn Hst Ha Hk Hu.
  destruct (update_inv _ _ _ _ _ _ _ _ Hu)
    as [[-> ->]|(-> & sd & c & v & Hs & Hr & Hc & Hv & _ & _ & _ & _ & Hbr)];
    [done|].
  destruct Hbr as [(Hnil & _)|(_ & Hd' & Hck & Hsd)]; [congruence|].
  unfold to_server in Hsd. rewrite Hd in Hsd.
  destruct d, dir; try done; simpl in Hsd; subst sd; simpl in *;
    try (apply check_seq_spec in Hck as [_ [?|?]]; congruence);
    (destruct (recv_listen _ _ _ _ _ _ _ Hr Hst) as (? & ? & ?);
     subst v; split; [repeat split; congruence|done]).
Qed.

Lemma updates_blocked d gs : ∀ s bs s',
  dir_ s = d → d ≠ DIR_NIL →
  stat_ (server_ s) = LISTEN → avail_ack_ (server_ s) = true →
  next_ack_ (server_ s) = 0 →
  updates gs s = Some (bs, s') →
  stat_ (server_ s') = LISTEN ∧
  Forall2 (λ g b, seg_dir g ≠ d → b = false) gs bs.
Proof.
  induction gs as [|g gs IH]; intros s bs s' Hd Hn Hst Ha Hk.
  - intros [= <- <-]. by split.
  - intros Hu.
    apply updates_cons_inv in Hu as (b & s1 & [bs1 s2] & Hu & Hr & [= -> ->]).
    destruct (update_blocked _ _ _ _ _ _ _ _ _ Hd Hn Hst Ha Hk Hu)
      as [(Hd1 & Hst1 & Ha1 & Hk1) Hb].
    destruct (IH _ _ _ Hd1 Hn Hst1 Ha1 Hk1 Hr) as [Hst' Hall].
    split; [done|]. by constructor.
Qed.

(** X13. A SYN whose sequence number is [2^32 - 1] blocks the other side for
    good: the server endpoint records [next_ack = 0], which [check_seq]
    takes for a failure, so every later segment from the server is refused
    and the server endpoint stays in LISTEN. *)
Theorem syn_with_last_seq_blocks_server d c a l key key_len h gs bs s' :
  d ≠ DIR_NIL → u32 (c + 1) = 0 →
  updates (mkSegment d SYN c a l :: gs) (TcpSession_new key key_len h)
  = Some (bs, s') →
  server_stat s' = LISTEN ∧
  Forall2 (λ g b, seg_dir g ≠ d → b = false) gs (tail bs).
Proof.
  intros Hd Hc Hu.
  apply updates_cons_inv in Hu as (b & s1 & [bs1 s2] & Hu & Hr & [= -> ->]).
  unfold update_seg in Hu. cbn [seg_flags seg_seq seg_ack seg_len seg_dir] in Hu.
  erewrite update_first in Hu;
    [|reflexivity|reflexivity|by apply send_syn_closed|by apply recv_syn_closed].
  injection Hu as <- <-.
  eapply (updates_blocked d gs); [| | | | |exact Hr];
    [reflexivity|exact Hd|reflexivity|reflexivity|exact Hc].
Qed.

Lemma syn_with_last_seq_blocks_server_witness :
  server_stat (session_after [mkSegment DIR_L2R SYN 4294967295 0 0;
                              mkSegment DIR_R2L (Z.lor SYN ACK) 5000 0 0;
                              mkSegment DIR_L2R ACK 0 5001 0;
                              mkSegment DIR_R2L ACK 5001 0 100]) = LISTEN ∧
  Forall2 (λ g b, seg_dir g ≠ DIR_L2R → b = false)
          [mkSegment DIR_R2L (Z.lor SYN ACK) 5000 0 0;
           mkSegment DIR_L2R ACK 0 5001 0;
           mkSegment DIR_R2L ACK 5001 0 100]
          (tail [true; false; true; false]).
Proof.
  apply (syn_with_last_seq_blocks_server DIR_L2R 4294967295 0 0 [] 0 0).
  - discriminate.
  - vm_compute. reflexivity.
  - vm_compute. reflexivity.
Defined.

(** ** What a call leaves alone *)

(** X18. [send] and [recv] each keep to their own fields: [send] never
    changes what the endpoint has recorded of its peer ([next_ack],
    [avail_ack], [recv_fin], [recv_finack]), and [recv] never changes what
    it has recorded of itself ([base_seq], [avail_seq], [sent_len],
    [sent_finack]). *)
Theorem send_recv_frames :
  (∀ flags seq ack data_len n b n',
     send flags seq ack data_len n = Some (b, n') →
     next_ack_ n' = next_ack_ n ∧ avail_ack_ n' = avail_ack_ n ∧
     recv_fin_ n' = recv_fin_ n ∧ recv_finack_ n' = recv_finack_ n) ∧
  (∀ flags seq ack data_len n b n',
     recv flags seq ack data_len n = Some (b, n') →
     base_seq_ n' = base_seq_ n ∧ avail_seq_ n' = avail_seq_ n ∧
     sent_len_ n' = sent_len_ n ∧ sent_finack_ n' = sent_finack_ n).
Proof.
  split; intros flags seq ack data_len n b n' H; endpoint_cases H n; done.
Qed.

Lemma send_recv_frames_witness :
  next_ack_ (client_ established) = next_ack_ (client_ (session_after handshake)) ∧
  base_seq_ (server_ established) = base_seq_ (server_ (session_after handshake)).
Proof.
  split.
  - apply (proj1 send_recv_frames ACK 1001 5001 100
             (client_ (session_after handshake)) true (client_ established)).
    vm_compute. reflexivity.
  - apply (proj2 send_recv_frames ACK 1001 5001 100
             (server_ (session_after handshake)) true (server_ established)).
    vm_compute. reflexivity.
Defined.

(** ** Refused segments *)

(** X19. A refused segment leaves no trace: the session that a sequence of
    segments leaves is the one that its accepted segments alone leave, and
    on their own they are all accepted again. *)
Theorem refused_segments_leave_no_trace gs : ∀ s bs s',
  updates gs s = Some (bs, s') →
  updates (accepted_of gs bs) s
  = Some (replicate (length (accepted_of gs bs)) true, s').
Proof.
  induction gs as [|g gs IH]; intros s bs s'.
  - by intros [= <- <-].
  - intros Hu.
    apply updates_cons_inv in Hu as (b & s1 & [bs1 s2] & Hu & Hr & [= -> ->]).
    cbn [accepted_of fst snd]. destruct b.
    + cbn [length replicate]. eapply updates_step; [exact Hu|by apply IH].
    + destruct (update_inv _ _ _ _ _ _ _ _ Hu) as [[_ ->]|[? _]];
        [by apply IH|discriminate].
Qed.

Lemma refused_segments_leave_no_trace_witness :
  updates [mkSegment DIR_L2R ACK 1001 5001 100] (session_after handshake)
  = Some ([true], established).
Proof.
  apply (refused_segments_leave_no_trace
           [mkSegment DIR_L2R ACK 7 5001 9; mkSegment DIR_L2R ACK 1001 5001 100;
            mkSegment DIR_L2R ACK 1001 5001 100]
           (session_after handshake) [false; true; false] established).
  vm_compute. reflexivity.
Defined.

(** * The rest of the decoder *)

Lemma update_ts flags seq ack data_len dir s b s' :
  update flags seq ack data_len dir s = Some (b, s') → ts_ s' = ts_ s.
Proof.
  intros Hu.
  by destruct (update_inv _ _ _ _ _ _ _ _ Hu)
    as [[_ ->]|(_ & sd & c & v & _ & _ & _ & _ & _ & _ & _ & ? & _)].
Qed.

Lemma assoc_last_snoc id l k v : ∀ acc,
  assoc_last id (l ++ [(k, v)]) acc = if k =? id then v else assoc_last id l acc.
Proof.
  induction l as [|[k' v'] l IH]; intros acc; simpl; [done|]. apply IH.
Qed.

Section DecoderMore.
Context {T : Type} `{LRUHash T}.

Lemma timeout_session_last_ts tv (d d' : TcpSsnDecoder T) log :
  timeout_session tv d = Some (d', log) → last_ts_ d' = tv.
Proof.
  unfold timeout_session.
  destruct ((0 <? last_ts_ d) && (last_ts_ d <? tv));
    (destruct (drain _ _ _) as [[t l]|]; simpl; [|discriminate]);
    by intros [= <- <-].
Qed.

Lemma fetch_session_ts p (d : TcpSsnDecoder T) :
  ts_ (fetch_session p d).1 = tv_sec p ∧
  last_ts_ (fetch_session p d).2 = last_ts_ d.
Proof. unfold fetch_session. by destruct (lru_get _ _ _ _). Qed.

(** X14. After [decode], the session that the packet belongs to carries the
    time of the packet, and so does the decoder, also when the packet is
    refused by [update] and when its time lies before that of the previous
    packet. *)
Theorem decode_stamps (d : TcpSsnDecoder T) p r :
  decode d p = Some r →
  ts (ssn r) = tv_sec p ∧ last_ts_ (dec r) = tv_sec p.
Proof.
  intros Hr. destruct (decode_inv _ _ _ Hr) as (d1 & log & ok & s1 & Hto & Hu & ->).
  apply update_ts in Hu. apply timeout_session_last_ts in Hto.
  destruct (fetch_session_ts p d1) as [Hts Hlt].
  unfold ts. cbn [ssn dec]. split; [congruence|].
  unfold set_table. cbn [last_ts_]. congruence.
Qed.

(** X15. [decode] only adds to the property: the packet's own fields and
    the attributes it came with stay, and the last two attributes written
    are the server state and the client state of the session, whatever
    [update] returned; a handler that reads them back gets these states. *)
Theorem decode_reports_states (d : TcpSsnDecoder T) p r :
  decode d p = Some r →
  tv_sec (prop r) = tv_sec p ∧ dir (prop r) = dir p ∧ buf (prop r) = buf p ∧
  ssn_label (prop r) = ssn_label p ∧ hash_value (prop r) = hash_value p ∧
  (∃ pre, vals (prop r)
          = vals p ++ pre
            ++ [(P_SERVER_STAT_ d, VarStat (server_stat (ssn r)));
                (P_CLIENT_STAT_ d, VarStat (client_stat (ssn r)))]) ∧
  value (P_CLIENT_STAT_ d) (prop r) = VarStat (client_stat (ssn r)) ∧
  (P_SERVER_STAT_ d ≠ P_CLIENT_STAT_ d →
   value (P_SERVER_STAT_ d) (prop r) = VarStat (server_stat (ssn r))).
Proof.
  intros Hr. destruct (decode_inv _ _ _ Hr) as (d1 & log & ok & s1 & _ & _ & ->).
  cbn [prop ssn]. unfold emitted.
  set (p1 := if ok then _ else p).
  assert (Hp1 : tv_sec p1 = tv_sec p ∧ dir p1 = dir p ∧ buf p1 = buf p ∧
                ssn_label p1 = ssn_label p ∧ hash_value p1 = hash_value p ∧
                ∃ pre, vals p1 = vals p ++ pre).
  { subst p1. destruct ok.
    - destruct (is_data_available (dir p) s1 && (0 <? remain p)); cbn;
        repeat split; eexists; by rewrite <- ?app_assoc.
    - repeat split. exists []. by rewrite app_nil_r. }
  destruct Hp1 as (? & ? & ? & ? & ? & pre & Hpre).
  cbn [copy tv_sec dir buf ssn_label hash_value vals].
  split; [done|]. split; [done|]. split; [done|]. split; [done|].
  split; [done|]. split; [|split].
  - exists pre. rewrite Hpre. by rewrite <- !app_assoc.
  - unfold value. cbn [vals copy]. rewrite assoc_last_snoc.
    by rewrite Z.eqb_refl.
  - intros Hne. unfold value. cbn [vals copy].
    rewrite assoc_last_snoc.
    destruct (Z.eqb_spec (P_CLIENT_STAT_ d) (P_SERVER_STAT_ d)); [congruence|].
    rewrite assoc_last_snoc. by rewrite Z.eqb_refl.
Qed.

Lemma drain_empty fuel tv (t : T) :
  lru_pop t = None → drain fuel tv t = Some (t, []).
Proof. intros Hp. destruct fuel; simpl; by rewrite Hp. Qed.

(** X20. Once [timeout_session] has run for a time [now], running it again
    for [now] or for an earlier time does nothing to the table: the clock of
    the table is not advanced and nothing is popped; only [last_ts] is set
    to the time given. *)
Theorem timeout_session_settled now now' (d d' : TcpSsnDecoder T) log :
  timeout_session now d = Some (d', log) →
  now' ≤ now →
  ∃ d'', timeout_session now' d' = Some (d'', mkTimeoutLog [] []) ∧
         ssn_table_ d'' = ssn_table_ d' ∧ last_ts_ d'' = now'.
Proof.
  intros Hto Hle.
  assert (Hp : lru_pop (ssn_table_ d') = None).
  { revert Hto. unfold timeout_session.
    destruct ((0 <? last_ts_ d) && (last_ts_ d <? now));
      (destruct (drain _ _ _) as [[t l]|] eqn:Hd; simpl; [|discriminate]);
      intros [= <- <-]; by eapply drain_emptied. }
  apply timeout_session_last_ts in Hto.
  unfold timeout_session.
  destruct (Z.ltb_spec (last_ts_ d') now') as [Hlt|_]; [lia|].
  rewrite andb_false_r. rewrite (drain_empty _ _ _ Hp). simpl.
  eexists. split; [reflexivity|]. by split.
Qed.

End DecoderMore.

Lemma timeout_session_settled_witness :
  ∃ d'', timeout_session 1200 heartbeat_timeout.1
         = Some (d'', mkTimeoutLog [] []) ∧
         ssn_table_ d'' = ssn_table_ heartbeat_timeout.1 ∧ last_ts_ d'' = 1200.
Proof.
  apply (timeout_session_settled 1301 1200
           (decoder_after [first_packet] wheel_decoder)
           heartbeat_timeout.1 heartbeat_timeout.2).
  - vm_compute. reflexivity.
  - vm_compute. discriminate.
Defined.

Lemma decode_stamps_witness :
  ts (ssn (decoded (decoder_after [first_packet; heartbeat] wheel_decoder)
                   pre_syn_packet)) = tv_sec pre_syn_packet ∧
  last_ts_ (dec (decoded (decoder_after [first_packet; heartbeat] wheel_decoder)
                         pre_syn_packet)) = tv_sec pre_syn_packet.
Proof.
  apply (decode_stamps (decoder_after [first_packet; heartbeat] wheel_decoder)
           pre_syn_packet).
  vm_compute. reflexivity.
Defined.

Lemma decode_reports_states_witness :
  value (P_CLIENT_STAT_ (decoder_after handshake_packets wheel_decoder))
        (prop (decoded (decoder_after handshake_packets wheel_decoder) data_packet))
  = VarStat (client_stat
               (ssn (decoded (decoder_after handshake_packets wheel_decoder)
                             data_packet))) ∧
  value (P_SERVER_STAT_ (decoder_after handshake_packets wheel_decoder))
        (prop (decoded (decoder_after handshake_packets wheel_decoder) data_packet))
  = VarStat (server_stat
               (ssn (decoded (decoder_after handshake_packets wheel_decoder)
                             data_packet))).
Proof.
  destruct (decode_reports_states
              (decoder_after handshake_packets wheel_decoder) data_packet
              (decoded (decoder_after handshake_packets wheel_decoder) data_packet))
    as (_ & _ & _ & _ & _ & _ & Hc & Hs).
  - vm_compute. reflexivity.
  - split; [exact Hc|]. apply Hs. vm_compute. discriminate.
Defined.

(** * [VarStat::repr] *)

(** X16. The names that [repr] gives to the states tell them apart: two
    states with the same name are the same state, and no state has the
    empty name. *)
Theorem repr_injective :
  (∀ a b, repr a = repr b → a = b) ∧ (∀ a, repr a ≠ EmptyString).
Proof.
  split.
  - intros a b. destruct a, b; simpl; intros Heq; (reflexivity || discriminate).
  - intros a. destruct a; discriminate.
Qed.

Lemma repr_injective_witness :
  SYN_RCVD = SYN_RCVD ∧ repr CLOSING ≠ EmptyString.
Proof.
  split.
  - apply (proj1 repr_injective SYN_RCVD SYN_RCVD). reflexivity.
  - apply (proj2 repr_injective CLOSING).
Defined.

(** * [main] of [swarm-dump] *)

(** X17. [main] starts a capture iff a source was named and is ready, and
    then exits with success; the interface given with [-i] is taken even
    when a file was given with [-r] as well.  In every other case nothing is
    started, one line goes to [std::cerr], and the exit status is
    failure. *)
Theorem main_source_choice ready opt :
  (∀ i, opt_interface opt = Some i →
        started (main ready opt)
        = if ready (SwarmDev i) then Some (SwarmDev i) else None) ∧
  (∀ f, opt_interface opt = None → opt_read_file opt = Some f →
        started (main ready opt)
        = if ready (SwarmFile f) then Some (SwarmFile f) else None) ∧
  (opt_interface opt = None → opt_read_file opt = None →
   started (main ready opt) = None) ∧
  (exit_status (main ready opt) = EXIT_SUCCESS ↔
   ∃ sw, started (main ready opt) = Some sw ∧ ready sw = true) ∧
  (started (main ready opt) = None →
   exit_status (main ready opt) = EXIT_FAILURE ∧
   length (cerr (main ready opt)) = 1%nat) ∧
  (is_Some (started (main ready opt)) → cerr (main ready opt) = []).
Proof.
  unfold main, EXIT_SUCCESS, EXIT_FAILURE.
  destruct (opt_interface opt) as [i|], (opt_read_file opt) as [f|]; cbn;
    repeat match goal with
           | |- context [ready ?sw] => destruct (ready sw) eqn:?; cbn
           end;
    repeat split; intros; simplify_eq/=;
    repeat match goal with
           | E : ready _ = _ |- _ => rewrite E
           | E : ∃ _, _ |- _ => destruct E as (? & ? & ?); simplify_eq/=
           | E : is_Some _ |- _ => destruct E as [? ?]; simplify_eq/=
           end;
    eauto; congruence.
Qed.

Lemma main_source_choice_witness :
  started (main (λ sw, match sw with SwarmDev _ => true | SwarmFile _ => false end)
                (mkValues (Some "dump.pcap"%string) (Some "eth0"%string)))
  = Some (SwarmDev "eth0").
Proof.
  exact (proj1 (main_source_choice
                  (λ sw, match sw with SwarmDev _ => true | SwarmFile _ => false end)
                  (mkValues (Some "dump.pcap"%string) (Some "eth0"%string)))
               "eth0"%string eq_refl).
Defined.
